(** * EDMS document explorer: folder tree builder and filter engine

    A shallow embedding of the pure core of
    [src/components/edms/FileExplorer.tsx] (the [folderTree] and
    [filteredDocuments] memos) and of the path construction of [TreeNode]
    in [FolderTree.tsx], with the properties the specification states
    about them.

    Modelling conventions.
    - A JavaScript string is a Rocq [string], the bytes of its text;
      [includes] is the substring test and [split] the tokenizer of
      [String.prototype.split] on a one-character separator.
      [toLowerCase] is not computed: Unicode case conversion is a method
      of the class [Casing], of which only its behaviour on ASCII text
      is assumed (the letters A-Z move to a-z and nothing else changes),
      so that what is proved holds of [String.prototype.toLowerCase] on
      every text.
    - [documentCount] is a natural number (a JS number that only ever
      counts documents).  Optional fields ([children?], [documentCount?],
      [description?], ...) are [option]s, and [x || d] is written out.
    - The [projectMap] of the builder is an insertion-ordered association
      list, as a JS [Map] iterates in insertion order.  A node is only ever
      referenced from the map or from its parent's [children] array, so the
      in-place mutation of a node is the replacement of that element at its
      position.
    - An exception is an explicit [Throw] result. *)

From Stdlib Require Import List String Ascii Bool Arith ZArith Lia.
Import ListNotations.

#[local] Open Scope string_scope.
#[local] Open Scope list_scope.
#[local] Open Scope nat_scope.

(* ================================================================= *)
(** ** JavaScript strings *)

Module Js.

(** [c] lower-cased: the letters [A]..[Z] move to [a]..[z]. *)
Definition lowerChar (c : ascii) : ascii :=
  let n := nat_of_ascii c in
  if (65 <=? n) && (n <=? 90) then ascii_of_nat (n + 32) else c.

(** Lower-casing of ASCII text, letter by letter. *)
Fixpoint asciiLower (s : string) : string :=
  match s with
  | EmptyString => EmptyString
  | String c s' => String (lowerChar c) (asciiLower s')
  end.

(** The text is ASCII: every byte is below 128. *)
Definition isAscii (s : string) : bool :=
  forallb (fun c => nat_of_ascii c <? 128) (list_ascii_of_string s).

(** [s.toLowerCase()]: the case conversion of the JavaScript engine.  On
    ASCII text it is [asciiLower]; on other text (accented letters, the
    final sigma, ...) nothing is assumed of it. *)
Class Casing : Type := {
  toLowerCase : string -> string;
  toLowerCase_ascii :
    forall s, isAscii s = true -> toLowerCase s = asciiLower s
}.

(** The conversion that leaves every byte outside A-Z alone. *)
Definition asciiCasing : Casing := {|
  toLowerCase := asciiLower;
  toLowerCase_ascii := fun s _ => eq_refl
|}.

(** [s.startsWith(q)] *)
Fixpoint startsWith (s q : string) : bool :=
  match q, s with
  | EmptyString, _ => true
  | String _ _, EmptyString => false
  | String a q', String b s' => Ascii.eqb a b && startsWith s' q'
  end.

(** [s.includes(q)]: [q] occurs in [s] as a contiguous substring. *)
Fixpoint includes (s q : string) : bool :=
  if startsWith s q then true
  else match s with
       | EmptyString => false
       | String _ s' => includes s' q
       end.

(** [s.split(sep)] for a one-character separator. *)
Fixpoint split (sep : ascii) (s : string) : list string :=
  match s with
  | EmptyString => [EmptyString]
  | String c s' =>
      if Ascii.eqb c sep then EmptyString :: split sep s'
      else match split sep s' with
           | tok :: toks => String c tok :: toks
           | [] => [String c EmptyString]
           end
  end.

(** [parts[i]] used as a string: an index out of range reads
    [undefined], which concatenation prints as the text "undefined". *)
Definition at_ (parts : list string) (i : nat) : string :=
  nth i parts "undefined".

(** [o || d] on an optional string: [undefined] and the empty string
    are falsy. *)
Definition orElse (o : option string) (d : string) : string :=
  match o with
  | Some EmptyString | None => d
  | Some s => s
  end.

(** Truthiness of a string: [if (s)]. *)
Definition truthy (s : string) : bool :=
  match s with
  | EmptyString => false
  | String _ _ => true
  end.

(** Outcome of a computation that may throw. *)
Inductive Result (A : Type) : Type :=
| Ok (a : A)
| Throw (e : string).
Arguments Ok {A} a.
Arguments Throw {A} e.

Definition bind {A B} (r : Result A) (k : A -> Result B) : Result B :=
  match r with
  | Ok a => k a
  | Throw e => Throw e
  end.

(** [l.forEach(body)] over an explicit state; a throwing body ends
    the loop. *)
Fixpoint forEach {S A} (body : S -> A -> Result S) (l : list A) (s : S)
  : Result S :=
  match l with
  | [] => Ok s
  | a :: l' => bind (body s a) (forEach body l')
  end.

(** [toks.join(sep)] *)
Fixpoint join (sep : string) (toks : list string) : string :=
  match toks with
  | [] => EmptyString
  | [t] => t
  | t :: toks' => (t ++ sep ++ join sep toks')%string
  end.

(** [q] occurs in [s]: some text, then [q], then some text. *)
Definition Substring (q s : string) : Prop :=
  exists pre post, s = (pre ++ q ++ post)%string.

(** Blank, tab, line feed, vertical tab, form feed, carriage return. *)
Definition isWhitespace (c : ascii) : bool :=
  let n := nat_of_ascii c in
  (n =? 32) || ((9 <=? n) && (n <=? 13)).

(** A string of one or more whitespace characters. *)
Definition whitespaceOnly (s : string) : bool :=
  truthy s && forallb isWhitespace (list_ascii_of_string s).

End Js.

(* ================================================================= *)
(** ** Data model ([mock/interfaces.ts]) *)

Inductive DocumentPhase : Type :=
| Planning | Design | Execution | Closure.

Inductive DocumentDiscipline : Type :=
| Civil | Electrical | Mechanical | Plumbing | HVAC | General.

(** The string a [DocumentPhase] is at run time. *)
Definition phaseStr (p : DocumentPhase) : string :=
  match p with
  | Planning => "Planning"
  | Design => "Design"
  | Execution => "Execution"
  | Closure => "Closure"
  end.

(** The string a [DocumentDiscipline] is at run time. *)
Definition disciplineStr (d : DocumentDiscipline) : string :=
  match d with
  | Civil => "Civil"
  | Electrical => "Electrical"
  | Mechanical => "Mechanical"
  | Plumbing => "Plumbing"
  | HVAC => "HVAC"
  | General => "General"
  end.

(** The fields of [Document] the explorer reads. *)
Module Document.
Record t : Type := mk {
  id : string;
  name : string;
  category : string;
  projectId : string;
  phase : DocumentPhase;
  discipline : DocumentDiscipline;
  tags : list string;
  description : option string
}.
End Document.

(** The fields of [Project] the explorer reads. *)
Module Project.
Record t : Type := mk {
  id : string;
  name : string
}.
End Project.

Inductive NodeType : Type :=
| TProject | TPhase | TDiscipline | TFile.

Set Warnings "-register-all".

Module FolderNode.
Inductive t : Type := mk {
  id : string;
  name : string;
  type : NodeType;
  children : option (list t);
  documentCount : option nat;
  projectId : option string;
  phase : option DocumentPhase;
  discipline : option DocumentDiscipline
}.

Definition setChildren (n : t) (cs : option (list t)) : t :=
  mk (id n) (name n) (type n) cs (documentCount n)
     (projectId n) (phase n) (discipline n).

Definition setDocumentCount (n : t) (c : option nat) : t :=
  mk (id n) (name n) (type n) (children n) c
     (projectId n) (phase n) (discipline n).

(** [n.documentCount || 0] *)
Definition countOrZero (n : t) : nat :=
  match documentCount n with
  | Some c => c
  | None => 0
  end.

(** [n.children || []] *)
Definition childrenOrEmpty (n : t) : list t :=
  match children n with
  | Some cs => cs
  | None => []
  end.
End FolderNode.

(* ================================================================= *)
(** ** An insertion-ordered map with string keys (JS [Map]) *)

Module JsMap.
Definition t (V : Type) : Type := list (string * V).

(** [m.has(k)] *)
Fixpoint has {V} (m : t V) (k : string) : bool :=
  match m with
  | [] => false
  | (k', _) :: m' => if String.eqb k' k then true else has m' k
  end.

(** [m.get(k)] *)
Fixpoint get {V} (m : t V) (k : string) : option V :=
  match m with
  | [] => None
  | (k', v) :: m' => if String.eqb k' k then Some v else get m' k
  end.

(** [m.set(k, v)]: a new key goes last, a known key keeps its place. *)
Fixpoint set {V} (m : t V) (k : string) (v : V) : t V :=
  match m with
  | [] => [(k, v)]
  | (k', v') :: m' =>
      if String.eqb k' k then (k', v) :: m' else (k', v') :: set m' k v
  end.

(** [Array.from(m.values())] *)
Definition values {V} (m : t V) : list V := map snd m.

Definition keys {V} (m : t V) : list string := map fst m.
End JsMap.

(* ================================================================= *)
(** ** FileExplorer.tsx *)

Module FileExplorer.
Import Js.

(** The first element of [cs] that satisfies [p] is mutated by [touch]. *)
Fixpoint mutateFirst {A} (p : A -> bool) (touch : A -> A) (cs : list A)
  : list A :=
  match cs with
  | [] => []
  | c :: cs' => if p c then touch c :: cs' else c :: mutateFirst p touch cs'
  end.

(** "Find or create": [let n = cs.find(p); if (!n) { n = fresh;
    cs.push(n) }], after which [n] is mutated by [touch]. *)
Definition findOrCreate {A} (p : A -> bool) (fresh : A) (touch : A -> A)
    (cs : list A) : list A :=
  match find p cs with
  | Some _ => mutateFirst p touch cs
  | None => cs ++ [touch fresh]
  end.

(** Lines 88-95: the discipline node created for [doc]. *)
Definition newDisciplineNode (doc : Document.t) : FolderNode.t :=
  FolderNode.mk
    (Document.projectId doc ++ "-" ++ phaseStr (Document.phase doc)
       ++ "-" ++ disciplineStr (Document.discipline doc))%string
    (disciplineStr (Document.discipline doc))
    TDiscipline (Some []) (Some 0)
    None None (Some (Document.discipline doc)).

(** Lines 72-79: the phase node created for [doc]. *)
Definition newPhaseNode (doc : Document.t) : FolderNode.t :=
  FolderNode.mk
    (Document.projectId doc ++ "-" ++ phaseStr (Document.phase doc))%string
    (phaseStr (Document.phase doc))
    TPhase (Some []) (Some 0)
    None (Some (Document.phase doc)) None.

(** Lines 56-63: the project node created for [doc]. *)
Definition newProjectNode (projectName : string) (doc : Document.t)
  : FolderNode.t :=
  FolderNode.mk
    (Document.projectId doc) projectName
    TProject (Some []) (Some 0)
    (Some (Document.projectId doc)) None None.

(** [n.documentCount = (n.documentCount || 0) + 1] *)
Definition bump (n : FolderNode.t) : FolderNode.t :=
  FolderNode.setDocumentCount n (Some (FolderNode.countOrZero n + 1)).

(** Line 99 on the discipline node. *)
Definition touchDiscipline (disciplineNode : FolderNode.t) : FolderNode.t :=
  bump disciplineNode.

(** Lines 83-99 on the phase node: count, then find or create the
    discipline node by the test [sameDiscipline]. *)
Definition touchPhaseWith (sameDiscipline : FolderNode.t -> bool)
    (doc : Document.t) (phaseNode : FolderNode.t) : FolderNode.t :=
  let phaseNode := bump phaseNode in
  FolderNode.setChildren phaseNode
    (Some (findOrCreate sameDiscipline (newDisciplineNode doc)
             touchDiscipline (FolderNode.childrenOrEmpty phaseNode))).

(** Lines 67-99 on the project node: count, then find or create the
    phase node by the test [samePhase]. *)
Definition touchProjectWith (samePhase sameDiscipline : FolderNode.t -> bool)
    (doc : Document.t) (projectNode : FolderNode.t) : FolderNode.t :=
  let projectNode := bump projectNode in
  FolderNode.setChildren projectNode
    (Some (findOrCreate samePhase (newPhaseNode doc)
             (touchPhaseWith sameDiscipline doc)
             (FolderNode.childrenOrEmpty projectNode))).

(** Line 70: [(c) => c.name === doc.phase] *)
Definition phaseByName (doc : Document.t) (c : FolderNode.t) : bool :=
  String.eqb (FolderNode.name c) (phaseStr (Document.phase doc)).

(** Line 86: [(c) => c.name === doc.discipline] *)
Definition disciplineByName (doc : Document.t) (c : FolderNode.t) : bool :=
  String.eqb (FolderNode.name c) (disciplineStr (Document.discipline doc)).

Section Builder.
(** The [projects] of [@/mock], which the builder only reads. *)
Variable projects : list Project.t.

(** Lines 52-53: [projects.find(...)?.name || 'Unknown Project'] *)
Definition projectName (projectId : string) : string :=
  let project :=
    find (fun p => String.eqb (Project.id p) projectId) projects in
  orElse (option_map Project.name project) "Unknown Project".

(** The body of [documents.forEach], lines 51-100, with the two
    lookups among siblings as parameters.  [projectMap.get(...)!]
    is [undefined] on an unknown key, and line 67 then throws; the
    mutation of the node the map holds is a [set] under its key. *)
Definition addDocumentWith
    (samePhase sameDiscipline : Document.t -> FolderNode.t -> bool)
    (projectMap : JsMap.t FolderNode.t) (doc : Document.t)
  : Result (JsMap.t FolderNode.t) :=
  let projectMap :=
    if negb (JsMap.has projectMap (Document.projectId doc))
    then JsMap.set projectMap (Document.projectId doc)
           (newProjectNode (projectName (Document.projectId doc)) doc)
    else projectMap in
  match JsMap.get projectMap (Document.projectId doc) with
  | None => Throw "TypeError"
  | Some projectNode =>
      Ok (JsMap.set projectMap (Document.projectId doc)
            (touchProjectWith (samePhase doc) (sameDiscipline doc) doc
               projectNode))
  end.

Definition addDocument := addDocumentWith phaseByName disciplineByName.

(** Lines 38-46 and 102: the root around the project nodes. *)
Definition rootNode (documents : list Document.t)
    (projectMap : JsMap.t FolderNode.t) : FolderNode.t :=
  FolderNode.mk "all" "All Documents" TProject
    (Some (JsMap.values projectMap)) (Some (List.length documents))
    None None None.

(** Lines 37-104 for a given loop body. *)
Definition folderTreeWith
    (body : JsMap.t FolderNode.t -> Document.t
            -> Result (JsMap.t FolderNode.t))
    (documents : list Document.t) : Result (list FolderNode.t) :=
  bind (forEach body documents [])
       (fun projectMap => Ok [rootNode documents projectMap]).

(** The [folderTree] memo, lines 37-104. *)
Definition folderTree := folderTreeWith addDocument.
End Builder.

(** Lines 111-129: the restriction decoded from [pathId], which is not
    the root id. *)
Definition pathFilter (pathId : string) (filtered : list Document.t)
  : list Document.t :=
  if includes pathId "-" then
    let parts := split "-" pathId in
    let projectId := (at_ parts 0 ++ "-" ++ at_ parts 1)%string in
    let filtered :=
      filter (fun d => String.eqb (Document.projectId d) projectId)
             filtered in
    let filtered :=
      if 3 <=? List.length parts then
        let phase := at_ parts 2 in
        filter (fun d => String.eqb (phaseStr (Document.phase d)) phase)
               filtered
      else filtered in
    let filtered :=
      if 4 <=? List.length parts then
        let discipline := at_ parts 3 in
        filter (fun d =>
                  String.eqb (disciplineStr (Document.discipline d))
                             discipline)
               filtered
      else filtered in
    filtered
  else
    filter (fun d => String.eqb (Document.projectId d) pathId) filtered.

Section Engine.
Context {casing : Casing}.

(** Lines 135-139: the test a document passes for the lower-cased
    [query]. *)
Definition matchesQuery (query : string) (d : Document.t) : bool :=
  includes (toLowerCase (Document.name d)) query
  || existsb (fun t => includes (toLowerCase t) query) (Document.tags d)
  || includes (toLowerCase (Document.category d)) query
  || match Document.description d with
     | Some s => includes (toLowerCase s) query
     | None => false
     end.

(** Lines 132-141 *)
Definition searchFilter (searchQuery : string) (filtered : list Document.t)
  : list Document.t :=
  if truthy searchQuery then
    let query := toLowerCase searchQuery in
    filter (matchesQuery query) filtered
  else filtered.

(** The [filteredDocuments] memo, lines 107-144.  On an empty path
    [selectedPath[0]] is [undefined], which differs from the root id,
    and the call of [includes] on it throws. *)
Definition filteredDocuments (documents : list Document.t)
    (selectedPath : list string) (searchQuery : string)
  : Result (list Document.t) :=
  match selectedPath with
  | [] => Throw "TypeError"
  | pathId :: _ =>
      let filtered := documents in
      let filtered :=
        if negb (String.eqb pathId "all") then pathFilter pathId filtered
        else filtered in
      Ok (searchFilter searchQuery filtered)
  end.
End Engine.

End FileExplorer.

(* ================================================================= *)
(** ** FolderTree.tsx *)

Module FolderTree.

(** The paths [TreeNode] hands to [onSelect]: the node's own
    [nodePath = [...parentPath, node.id]] on a click, and those of its
    children, which are rendered with [parentPath = nodePath].  Every
    node is taken as rendered (expanded). *)
Fixpoint TreeNode (parentPath : list string) (node : FolderNode.t)
  : list (list string) :=
  let nodePath := parentPath ++ [FolderNode.id node] in
  nodePath ::
    match FolderNode.children node with
    | Some cs => flat_map (TreeNode nodePath) cs
    | None => []
    end.

(** [FolderTree]: each top-level node is a [TreeNode] with the default
    [parentPath = []]. *)
Definition FolderTree (nodes : list FolderNode.t) : list (list string) :=
  flat_map (TreeNode []) nodes.

End FolderTree.

(* ================================================================= *)
(** ** The specification's reading of the two lookups and of the search *)

Module Spec.
Import Js.

(** Lookup of a phase node by its composite id
    [projectId-phase]. *)
Definition phaseById (doc : Document.t) (c : FolderNode.t) : bool :=
  String.eqb (FolderNode.id c)
    (Document.projectId doc ++ "-" ++ phaseStr (Document.phase doc)).

(** Lookup of a discipline node by its composite id
    [projectId-phase-discipline]. *)
Definition disciplineById (doc : Document.t) (c : FolderNode.t) : bool :=
  String.eqb (FolderNode.id c)
    (Document.projectId doc ++ "-" ++ phaseStr (Document.phase doc)
       ++ "-" ++ disciplineStr (Document.discipline doc)).

(** The builder with exact-id lookup at both levels. *)
Definition folderTree_byId (projects : list Project.t) :=
  FileExplorer.folderTreeWith
    (FileExplorer.addDocumentWith projects phaseById disciplineById).

(** The search test as the specification words it: the query is a
    substring of the name, or of the category, or is one of the tags,
    or is a substring of the description, all in lower case. *)
Definition searchMatches {casing : Casing} (searchQuery : string)
    (d : Document.t) : bool :=
  let query := toLowerCase searchQuery in
  includes (toLowerCase (Document.name d)) query
  || includes (toLowerCase (Document.category d)) query
  || existsb (fun t => String.eqb (toLowerCase t) query) (Document.tags d)
  || match Document.description d with
     | Some s => includes (toLowerCase s) query
     | None => false
     end.

(** A restriction that holds when its token is absent. *)
Definition holdsIfPresent (tok : option string) (s : string) : bool :=
  match tok with
  | Some t => String.eqb s t
  | None => true
  end.

(** The restriction read off the tokens [t0 :: t1 :: more] of a path id:
    project, then phase, then discipline, composed with AND. *)
Definition restriction (t0 t1 : string) (more : list string)
    (d : Document.t) : bool :=
  String.eqb (Document.projectId d) (t0 ++ "-" ++ t1)
  && holdsIfPresent (nth_error more 0) (phaseStr (Document.phase d))
  && holdsIfPresent (nth_error more 1)
       (disciplineStr (Document.discipline d)).
End Spec.

(* ================================================================= *)
(** ** The two-document collection of the specification's scenarios;
       the fields the scenarios leave open are parameters. *)

Module Scenario.
Definition d1 (category : string) (description : option string)
  : Document.t :=
  Document.mk "d1" "Bridge Plan" category "proj-1" Design Civil
              ["structural"] description.

Definition d2 (category : string) (description : option string)
  : Document.t :=
  Document.mk "d2" "Wiring Diagram" category "proj-1" Execution Electrical
              [] description.

(** A document with no whitespace in any searched field. *)
Definition d3 : Document.t :=
  Document.mk "d3" "Budget.xlsx" "Report" "proj-2" Planning General
              ["cost"] None.
End Scenario.

(* ================================================================= *)
(** ** Notions used to state the invariants of the builder *)

Module Aux.
Import Js FileExplorer.

(** [F] keeps the elements that pass one fixed test, in order. *)
Definition IsFilter {A} (F : list A -> list A) : Prop :=
  exists keep, forall l, F l = filter keep l.

(** The fields of [d] the search reads are ASCII text. *)
Definition asciiDocument (d : Document.t) : bool :=
  isAscii (Document.name d)
  && forallb isAscii (Document.tags d)
  && isAscii (Document.category d)
  && match Document.description d with
     | Some s => isAscii s
     | None => true
     end.

(** What one round of the builder's loop does to the map, read off the
    key: the value under [k], or [fresh] at the end when [k] is new,
    is changed by [f]. *)
Fixpoint upsert {V} (m : JsMap.t V) (k : string) (fresh : V) (f : V -> V)
  : JsMap.t V :=
  match m with
  | [] => [(k, f fresh)]
  | (k', v) :: m' =>
      if String.eqb k' k then (k', f v) :: m'
      else (k', v) :: upsert m' k fresh f
  end.

Definition step (projects : list Project.t)
    (samePhase sameDiscipline : Document.t -> FolderNode.t -> bool)
    (projectMap : JsMap.t FolderNode.t) (doc : Document.t)
  : JsMap.t FolderNode.t :=
  upsert projectMap (Document.projectId doc)
    (newProjectNode (projectName projects (Document.projectId doc)) doc)
    (touchProjectWith (samePhase doc) (sameDiscipline doc) doc).

(** The id of [c] is its parent's id, a dash, and its own name. *)
Definition idUnder (parentId : string) (c : FolderNode.t) : Prop :=
  FolderNode.id c = (parentId ++ "-" ++ FolderNode.name c)%string.

Definition distinctNames (cs : list FolderNode.t) : Prop :=
  NoDup (map FolderNode.name cs).

(** A phase node under the project [k]. *)
Definition wfPhase (k : string) (c : FolderNode.t) : Prop :=
  idUnder k c
  /\ distinctNames (FolderNode.childrenOrEmpty c)
  /\ Forall (idUnder (FolderNode.id c)) (FolderNode.childrenOrEmpty c).

(** The project node stored under the key [k]. *)
Definition wfProject (projects : list Project.t) (k : string)
    (n : FolderNode.t) : Prop :=
  FolderNode.id n = k
  /\ FolderNode.name n = projectName projects k
  /\ FolderNode.documentCount n <> None
  /\ distinctNames (FolderNode.childrenOrEmpty n)
  /\ Forall (wfPhase k) (FolderNode.childrenOrEmpty n)
  /\ FolderNode.type n = TProject.

Definition wfMap (projects : list Project.t) (m : JsMap.t FolderNode.t)
  : Prop :=
  NoDup (JsMap.keys m)
  /\ Forall (fun kv => wfProject projects (fst kv) (snd kv)) m.

(** The sum of [documentCount] over a list of nodes. *)
Definition totalCount (ns : list FolderNode.t) : nat :=
  list_sum (map FolderNode.countOrZero ns).

(** No two nodes of [ns] have the same id. *)
Definition distinctIds (ns : list FolderNode.t) : Prop :=
  NoDup (map FolderNode.id ns).
End Aux.

(* ================================================================= *)
(** ** ExplorerLayout.tsx *)

Module ExplorerLayout.
Import Js.

(** One round of the [for] loop of [findNodeName] on [node]: [Some r]
    when the round returns [r], [None] when the loop goes on.  The search
    in the children counts only when what it found is truthy. *)
Fixpoint findNodeNameAt (targetId : string) (node : FolderNode.t)
  : option string :=
  if String.eqb (FolderNode.id node) targetId
  then Some (FolderNode.name node)
  else
    match FolderNode.children node with
    | Some cs =>
        let found :=
          (fix loop (nodes : list FolderNode.t) : option string :=
             match nodes with
             | [] => None
             | n :: nodes' =>
                 match findNodeNameAt targetId n with
                 | Some r => Some r
                 | None => loop nodes'
                 end
             end) cs in
        match found with
        | Some r => if truthy r then Some r else None
        | None => None
        end
    | None => None
    end.

(** [findNodeName(nodes, targetId)]: the loop, [None] for [null]. *)
Fixpoint findNodeName (nodes : list FolderNode.t) (targetId : string)
  : option string :=
  match nodes with
  | [] => None
  | n :: nodes' =>
      match findNodeNameAt targetId n with
      | Some r => Some r
      | None => findNodeName nodes' targetId
      end
  end.

(** [findNodeName(folderTree, id) || id] *)
Definition labelFor (folderTree : list FolderNode.t) (id : string) : string :=
  orElse (findNodeName folderTree id) id.

(** [breadcrumbPath] *)
Definition breadcrumbPath (folderTree : list FolderNode.t)
    (selectedPath : list string) : list string :=
  match selectedPath with
  | first :: _ =>
      if negb (String.eqb first "all")
      then map (labelFor folderTree) selectedPath
      else []
  | [] => []
  end.

(** [l.slice(0, end)] for an integer [end]: a negative [end] counts from
    the end of [l]. *)
Definition slice0 {A} (l : list A) (end_ : Z) : list A :=
  let len := Z.of_nat (List.length l) in
  let k := if (end_ <? 0)%Z then Z.max (len + end_) 0 else Z.min end_ len in
  firstn (Z.to_nat k) l.

(** [handleBreadcrumbClick(index)]: the path handed to [onPathChange]. *)
Definition handleBreadcrumbClick (selectedPath : list string) (index : Z)
  : list string :=
  if (index =? 0)%Z then ["all"] else slice0 selectedPath index.

End ExplorerLayout.

(* ================================================================= *)
(** ** The rest of [TreeNode] and of [FileExplorer] *)

Module Selection.

(** [isSelected] of [TreeNode]: the last element of the selected path
    is the node's id. *)
Definition isSelected (selectedPath : list string) (node : FolderNode.t)
  : bool :=
  match rev selectedPath with
  | lastId :: _ => String.eqb lastId (FolderNode.id node)
  | [] => false
  end.

End Selection.

Module ContextMenu.

(** The window and the pointer, in whole CSS pixels. *)
Record Viewport : Type := mkViewport {
  innerWidth : Z;
  innerHeight : Z
}.

(** [handleContextMenu]: where the menu opens for a click at
    [(clientX, clientY)]; [canDelete] is an optional flag. *)
Definition handleContextMenu (window : Viewport) (canDelete : option bool)
    (clientX clientY : Z) : Z * Z :=
  let menuWidth := 200%Z in
  let menuHeight :=
    match canDelete with
    | Some true => 280%Z
    | Some false | None => 220%Z
    end in
  let padding := 8%Z in
  let newX := clientX in
  let newY := clientY in
  let newX :=
    if (innerWidth window <? newX + menuWidth + padding)%Z
    then (innerWidth window - menuWidth - padding)%Z else newX in
  let newY :=
    if (innerHeight window <? newY + menuHeight + padding)%Z
    then (innerHeight window - menuHeight - padding)%Z else newY in
  (newX, newY).

End ContextMenu.

(* ================================================================= *)
(** ** Notions used to state the further properties *)

Module Aux2.
Import Js FileExplorer Aux.

(** A node and all the nodes below it, parents first. *)
Fixpoint nodesOf (n : FolderNode.t) : list FolderNode.t :=
  n :: match FolderNode.children n with
       | Some cs => flat_map nodesOf cs
       | None => []
       end.

Definition allNodes (tree : list FolderNode.t) : list FolderNode.t :=
  flat_map nodesOf tree.

(** The selected paths the explorer can be in: the initial one, one
    selected by a click in the tree of some document collection, or one
    selected from the address bar with an index that is not negative. *)
Inductive Reachable : list string -> Prop :=
| ReachInit : Reachable ["all"]
| ReachTree projects D tree path p :
    Reachable path ->
    folderTree projects D = Ok tree ->
    In p (FolderTree.FolderTree tree) ->
    Reachable p
| ReachCrumb path index :
    Reachable path ->
    (0 <= index)%Z ->
    Reachable (ExplorerLayout.handleBreadcrumbClick path index).

(** The elements of [l], each at its first occurrence. *)
Fixpoint firstSeen (l : list string) : list string :=
  match l with
  | [] => []
  | x :: l' => x :: filter (fun y => negb (String.eqb y x)) (firstSeen l')
  end.

(** *** The strict hierarchy *)

(** A leaf of the tree: a discipline node, tagged with its discipline,
    with an empty [children] array. *)
Definition isDisciplineNode (g : FolderNode.t) : Prop :=
  FolderNode.type g = TDiscipline
  /\ FolderNode.children g = Some []
  /\ exists di, FolderNode.name g = disciplineStr di
                /\ FolderNode.discipline g = Some di.

(** A phase node: tagged with its phase, over one or more discipline
    nodes. *)
Definition isPhaseNode (c : FolderNode.t) : Prop :=
  FolderNode.type c = TPhase
  /\ (exists ph, FolderNode.name c = phaseStr ph
                 /\ FolderNode.phase c = Some ph)
  /\ exists cs, FolderNode.children c = Some cs /\ cs <> []
                /\ Forall isDisciplineNode cs.

(** A project node: tagged with its own id as [projectId], named, over
    one or more phase nodes. *)
Definition isProjectNode (n : FolderNode.t) : Prop :=
  FolderNode.type n = TProject
  /\ FolderNode.projectId n = Some (FolderNode.id n)
  /\ FolderNode.name n <> ""%string
  /\ exists cs, FolderNode.children n = Some cs /\ cs <> []
                /\ Forall isPhaseNode cs.

(** *** The counts *)

(** The node counts at least one document, and its children's counts
    sum to its own. *)
Definition countsAddUp (n : FolderNode.t) : Prop :=
  1 <= FolderNode.countOrZero n
  /\ totalCount (FolderNode.childrenOrEmpty n) = FolderNode.countOrZero n.

Definition phaseCounts (c : FolderNode.t) : Prop :=
  countsAddUp c
  /\ Forall (fun g => 1 <= FolderNode.countOrZero g)
            (FolderNode.childrenOrEmpty c).

Definition projectCounts (n : FolderNode.t) : Prop :=
  countsAddUp n /\ Forall phaseCounts (FolderNode.childrenOrEmpty n).

(** *** The documents a node stands for *)

Definition inProject (k : string) (d : Document.t) : bool :=
  String.eqb (Document.projectId d) k.

Definition inPhase (k ph : string) (d : Document.t) : bool :=
  inProject k d && String.eqb (phaseStr (Document.phase d)) ph.

Definition inDiscipline (k ph di : string) (d : Document.t) : bool :=
  inPhase k ph d && String.eqb (disciplineStr (Document.discipline d)) di.

(** The count of the first node of [cs] named [x], 0 when there is
    none. *)
Definition countByName (x : string) (cs : list FolderNode.t) : nat :=
  match find (fun c => String.eqb (FolderNode.name c) x) cs with
  | Some c => FolderNode.countOrZero c
  | None => 0
  end.

(** The counts under the phase node [c] of the project [k] are the
    numbers of documents of [done] by discipline. *)
Definition countsPhaseDocs (done : list Document.t) (k : string)
    (c : FolderNode.t) : Prop :=
  forall di,
    countByName di (FolderNode.childrenOrEmpty c)
    = List.length (filter (inDiscipline k (FolderNode.name c) di) done).

(** The counts under the project node [n] of key [k] are the numbers of
    documents of [done] by project, by phase and by discipline. *)
Definition countsDocs (done : list Document.t) (k : string)
    (n : FolderNode.t) : Prop :=
  FolderNode.countOrZero n = List.length (filter (inProject k) done)
  /\ (forall ph,
        countByName ph (FolderNode.childrenOrEmpty n)
        = List.length (filter (inPhase k ph) done))
  /\ Forall (fun c =>
               forall di,
                 countByName di (FolderNode.childrenOrEmpty c)
                 = List.length
                     (filter (inDiscipline k (FolderNode.name c) di) done))
            (FolderNode.childrenOrEmpty n).

Definition docsInv (done : list Document.t) (m : JsMap.t FolderNode.t)
  : Prop :=
  Forall (fun kv => countsDocs done (fst kv) (snd kv)) m
  /\ forall k, JsMap.has m k = false ->
               List.length (filter (inProject k) done) = 0.

End Aux2.

(* ================================================================= *)
(** * Properties *)

(** ** Strings *)

Module JsFacts.
Import Js.

Lemma startsWith_spec (s q : string) :
  startsWith s q = true <-> exists post, s = (q ++ post)%string.
Proof.
  revert s; induction q as [|a q IH]; intros s; simpl.
  - split; [intros _; now exists s | intros _; now destruct s].
  - destruct s as [|b s]; simpl.
    + split; [discriminate | intros [post H]; discriminate].
    + rewrite andb_true_iff, Ascii.eqb_eq, IH. split.
      * intros [-> [post ->]]. now exists post.
      * intros [post H]. injection H as -> ->. split; [reflexivity|now exists post].
Qed.

Lemma includes_eq (s q : string) :
  includes s q =
  startsWith s q
  || match s with
     | EmptyString => false
     | String _ s' => includes s' q
     end.
Proof. destruct s; unfold includes; fold includes; now destruct startsWith. Qed.

Lemma includes_spec (s q : string) :
  includes s q = true <-> Substring q s.
Proof.
  unfold Substring. induction s as [|c s IH];
    rewrite includes_eq, orb_true_iff, startsWith_spec.
  - split.
    + intros [[post H]|H]; [now exists ""%string, post|discriminate].
    + intros [pre [post H]]. left. destruct pre; [|discriminate].
      now exists post.
  - rewrite IH. split.
    + intros [[post H]|[pre [post ->]]];
        [now exists ""%string, post|now exists (String c pre), post].
    + intros [pre [post H]]. destruct pre as [|c' pre]; simpl in H.
      * left. now exists post.
      * right. injection H as -> ->. now exists pre, post.
Qed.

Lemma includes_empty (s : string) : includes s "" = true.
Proof. destruct s; reflexivity. Qed.

Lemma split_nonempty (sep : ascii) (s : string) : split sep s <> [].
Proof.
  destruct s as [|c s]; simpl; [discriminate|].
  destruct (Ascii.eqb c sep); [discriminate|].
  destruct (split sep s); discriminate.
Qed.

(** Joining the tokens with the separator gives the string back. *)
Lemma join_split (sep : ascii) (s : string) :
  join (String sep "") (split sep s) = s.
Proof.
  induction s as [|c s IH]; simpl; [reflexivity|].
  destruct (Ascii.eqb c sep) eqn:E.
  - apply Ascii.eqb_eq in E as ->.
    destruct (split sep s) as [|t ts] eqn:Es; [now apply split_nonempty in Es|].
    change (join (String sep "") ("" :: t :: ts))
      with (String sep (join (String sep "") (t :: ts))).
    now rewrite IH.
  - destruct (split sep s) as [|t ts] eqn:Es; [now apply split_nonempty in Es|].
    destruct ts as [|t' ts]; simpl in *; now rewrite IH.
Qed.

(** No token holds the separator. *)
Lemma split_tokens (sep : ascii) (s : string) :
  Forall (fun t => includes t (String sep "") = false) (split sep s).
Proof.
  induction s as [|c s IH]; simpl.
  - constructor; [reflexivity|constructor].
  - destruct (Ascii.eqb c sep) eqn:E.
    + constructor; [reflexivity|exact IH].
    + destruct (split sep s) as [|t ts] eqn:Es; [now apply split_nonempty in Es|].
      inversion IH as [|? ? Ht Hts]; subst. constructor; [|exact Hts].
      simpl. rewrite Ascii.eqb_sym, E. simpl. exact Ht.
Qed.

(** A string that holds the separator has at least two tokens. *)
Lemma split_two (sep : ascii) (s : string) :
  includes s (String sep "") = true ->
  exists t0 t1 more, split sep s = t0 :: t1 :: more.
Proof.
  induction s as [|c s IH]; simpl; [discriminate|].
  rewrite Ascii.eqb_sym. destruct (Ascii.eqb c sep) eqn:E; simpl.
  - intros _. destruct (split sep s) as [|t ts] eqn:Es;
      [now apply split_nonempty in Es|]. now exists ""%string, t, ts.
  - intros H. destruct (IH H) as [t0 [t1 [more ->]]].
    now exists (String c t0), t1, more.
Qed.

Lemma truthy_iff (s : string) : truthy s = true <-> s <> ""%string.
Proof. destruct s; simpl; split; congruence. Qed.

Lemma lowerChar_whitespace (c : ascii) :
  isWhitespace c = true -> lowerChar c = c.
Proof.
  destruct c as [[] [] [] [] [] [] [] []]; vm_compute; congruence.
Qed.

Lemma asciiLower_whitespace (s : string) :
  forallb isWhitespace (list_ascii_of_string s) = true -> asciiLower s = s.
Proof.
  induction s as [|c s IH]; simpl; [reflexivity|].
  rewrite andb_true_iff. intros [Hc Hs].
  now rewrite lowerChar_whitespace, IH.
Qed.

Lemma isWhitespace_ascii (c : ascii) :
  isWhitespace c = true -> (nat_of_ascii c <? 128) = true.
Proof.
  destruct c as [[] [] [] [] [] [] [] []]; vm_compute; congruence.
Qed.

Lemma isAscii_whitespace (s : string) :
  forallb isWhitespace (list_ascii_of_string s) = true -> isAscii s = true.
Proof.
  unfold isAscii. induction s as [|c s IH]; simpl; [reflexivity|].
  rewrite !andb_true_iff. intros [Hc Hs].
  split; [now apply isWhitespace_ascii|now apply IH].
Qed.

(** Lower-casing leaves a whitespace string as it is. *)
Lemma toLowerCase_whitespace {casing : Casing} (s : string) :
  forallb isWhitespace (list_ascii_of_string s) = true -> toLowerCase s = s.
Proof.
  intros H. rewrite toLowerCase_ascii by now apply isAscii_whitespace.
  now apply asciiLower_whitespace.
Qed.

Lemma isAscii_app (a b : string) :
  isAscii (a ++ b) = isAscii a && isAscii b.
Proof.
  unfold isAscii. induction a as [|c a IH]; simpl; [reflexivity|].
  now rewrite IH, andb_assoc.
Qed.

Lemma asciiLower_app (a b : string) :
  asciiLower (a ++ b) = (asciiLower a ++ asciiLower b)%string.
Proof. induction a as [|c a IH]; simpl; [reflexivity|now rewrite IH]. Qed.

Lemma eqb_append_l (a b c : string) :
  String.eqb (a ++ b) (a ++ c) = String.eqb b c.
Proof.
  induction a as [|x a IH]; simpl; [reflexivity|].
  now rewrite Ascii.eqb_refl.
Qed.

Lemma append_assoc (a b c : string) :
  ((a ++ b) ++ c = a ++ (b ++ c))%string.
Proof. induction a as [|x a IH]; simpl; [reflexivity|now rewrite IH]. Qed.

Lemma append_inj_l (a b c : string) :
  (a ++ b = a ++ c)%string -> b = c.
Proof.
  intros H. apply String.eqb_eq. rewrite <- (eqb_append_l a).
  now apply String.eqb_eq.
Qed.
End JsFacts.

(** ** Lists *)

Module ListFacts.
Import Aux.

Lemma filter_twice {A} (f g : A -> bool) (l : list A) :
  filter f (filter g l) = filter (fun x => g x && f x) l.
Proof.
  induction l as [|x l IH]; simpl; [reflexivity|].
  destruct (g x); simpl; [destruct (f x)|]; now rewrite IH.
Qed.

Lemma filter_idem {A} (f : A -> bool) (l : list A) :
  filter f (filter f l) = filter f l.
Proof.
  rewrite filter_twice. apply filter_ext. intros x. now destruct (f x).
Qed.

Lemma filter_all {A} (l : list A) : filter (fun _ => true) l = l.
Proof. induction l as [|x l IH]; simpl; [reflexivity|now rewrite IH]. Qed.

Lemma IsFilter_id {A} : IsFilter (fun l : list A => l).
Proof. exists (fun _ => true). intros l. now rewrite filter_all. Qed.

Lemma IsFilter_filter {A} (f : A -> bool) : IsFilter (filter f).
Proof. now exists f. Qed.

Lemma IsFilter_compose {A} (F G : list A -> list A) :
  IsFilter F -> IsFilter G -> IsFilter (fun l => G (F l)).
Proof.
  intros [f Hf] [g Hg]. exists (fun x => f x && g x). intros l.
  now rewrite Hg, Hf, filter_twice.
Qed.

Lemma IsFilter_idem {A} (F : list A -> list A) (l : list A) :
  IsFilter F -> F (F l) = F l.
Proof. intros [f Hf]. now rewrite !Hf, filter_idem. Qed.

End ListFacts.

(** ** The filter engine *)

Module FilterFacts.
Import Js FileExplorer Aux ListFacts JsFacts.

Ltac is_filter :=
  repeat first
    [ apply IsFilter_filter
    | apply IsFilter_id
    | match goal with
      | |- IsFilter (fun l => filter ?f (@?G l)) =>
          apply (IsFilter_compose G (filter f))
      end ].

Section WithCasing.
Context {casing : Casing}.

Lemma pathFilter_IsFilter (pathId : string) : IsFilter (pathFilter pathId).
Proof.
  unfold pathFilter.
  destruct (includes pathId "-"); [|is_filter].
  destruct (3 <=? List.length (split "-" pathId)),
           (4 <=? List.length (split "-" pathId)); is_filter.
Qed.

Lemma searchFilter_IsFilter (q : string) : IsFilter (searchFilter q).
Proof.
  unfold searchFilter. destruct (truthy q);
    [apply IsFilter_filter|apply IsFilter_id].
Qed.

(** On a non-empty path the engine keeps, in order, the documents that
    pass one test fixed by the first path element and the query. *)
Lemma filteredDocuments_IsFilter (pathId : string) (rest : list string)
    (q : string) :
  exists F, IsFilter F /\
    forall D, filteredDocuments D (pathId :: rest) q = Ok (F D).
Proof.
  exists (fun D => searchFilter q
                     (if negb (String.eqb pathId "all")
                      then pathFilter pathId D else D)).
  split; [|reflexivity].
  apply (IsFilter_compose
           (fun D => if negb _ then pathFilter pathId D else D)
           (searchFilter q)).
  - destruct (negb _); [apply pathFilter_IsFilter|apply IsFilter_id].
  - apply searchFilter_IsFilter.
Qed.

Lemma searchFilter_nonempty (q : string) (D : list Document.t) :
  q <> ""%string ->
  searchFilter q D = filter (matchesQuery (toLowerCase q)) D.
Proof.
  intros H. unfold searchFilter. now rewrite (proj2 (truthy_iff q) H).
Qed.

Lemma searchFilter_same_case (q q' : string) (D : list Document.t) :
  truthy q' = truthy q ->
  toLowerCase q' = toLowerCase q -> searchFilter q' D = searchFilter q D.
Proof.
  intros Ht H. unfold searchFilter. now rewrite Ht, H.
Qed.

Lemma filteredDocuments_same_case (q q' : string) (D : list Document.t)
    (p : list string) :
  truthy q' = truthy q ->
  toLowerCase q' = toLowerCase q ->
  filteredDocuments D p q' = filteredDocuments D p q.
Proof.
  intros Ht H. destruct p as [|pathId rest]; [reflexivity|].
  unfold filteredDocuments. now rewrite (searchFilter_same_case q q').
Qed.

Lemma matchesQuery_spec (query : string) (d : Document.t) :
  matchesQuery query d = true <->
  Substring query (toLowerCase (Document.name d))
  \/ (exists t, In t (Document.tags d)
                /\ Substring query (toLowerCase t))
  \/ Substring query (toLowerCase (Document.category d))
  \/ (exists s, Document.description d = Some s
                /\ Substring query (toLowerCase s)).
Proof.
  unfold matchesQuery.
  rewrite !orb_true_iff, existsb_exists, !includes_spec.
  assert (Hd : match Document.description d with
               | Some s => includes (toLowerCase s) query
               | None => false
               end = true
               <-> exists s, Document.description d = Some s
                             /\ Substring query (toLowerCase s)).
  { destruct (Document.description d) as [s|].
    - rewrite includes_spec. split.
      + intros H. now exists s.
      + intros [s' [E H]]. now injection E as ->.
    - split; [discriminate|]. intros [s [E _]]. discriminate. }
  rewrite Hd.
  assert (Ht : (exists t, In t (Document.tags d)
                          /\ includes (toLowerCase t) query = true)
               <-> exists t, In t (Document.tags d)
                             /\ Substring query (toLowerCase t)).
  { split; intros [t [Hin H]]; exists t; split; trivial;
      now apply includes_spec. }
  rewrite Ht. tauto.
Qed.
(** *** ASCII text *)

Lemma matchesQuery_ascii (query : string) (d : Document.t) :
  asciiDocument d = true ->
  matchesQuery query d = matchesQuery (casing := asciiCasing) query d.
Proof.
  unfold asciiDocument, matchesQuery. intros H.
  apply andb_true_iff in H as [H Hd]. apply andb_true_iff in H as [H Hc].
  apply andb_true_iff in H as [Hn Ht].
  rewrite (toLowerCase_ascii _ Hn), (toLowerCase_ascii _ Hc).
  cbn [toLowerCase asciiCasing]. f_equal; [f_equal; f_equal|].
  - induction (Document.tags d) as [|t ts IH]; simpl; [reflexivity|].
    simpl in Ht. apply andb_true_iff in Ht as [Ht Hts].
    now rewrite (toLowerCase_ascii _ Ht), (IH Hts).
  - destruct (Document.description d) as [s|]; [|reflexivity].
    now rewrite (toLowerCase_ascii _ Hd).
Qed.

Lemma searchMatches_ascii (q : string) (d : Document.t) :
  asciiDocument d = true ->
  isAscii q = true ->
  Spec.searchMatches q d = Spec.searchMatches (casing := asciiCasing) q d.
Proof.
  unfold asciiDocument, Spec.searchMatches. intros H Hq.
  apply andb_true_iff in H as [H Hd]. apply andb_true_iff in H as [H Hc].
  apply andb_true_iff in H as [Hn Ht].
  rewrite (toLowerCase_ascii _ Hn), (toLowerCase_ascii _ Hc),
    (toLowerCase_ascii _ Hq).
  cbn [toLowerCase asciiCasing]. f_equal; [f_equal|].
  - induction (Document.tags d) as [|t ts IH]; simpl; [reflexivity|].
    simpl in Ht. apply andb_true_iff in Ht as [Ht Hts].
    now rewrite (toLowerCase_ascii _ Ht), (IH Hts).
  - destruct (Document.description d) as [s|]; [|reflexivity].
    now rewrite (toLowerCase_ascii _ Hd).
Qed.

(** On ASCII documents and an ASCII query the engine is the engine with
    ASCII lower-casing. *)
Lemma filteredDocuments_ascii (D : list Document.t) (p : list string)
    (q : string) :
  forallb asciiDocument D = true ->
  isAscii q = true ->
  filteredDocuments D p q = filteredDocuments (casing := asciiCasing) D p q.
Proof.
  intros HD Hq. destruct p as [|pathId rest]; [reflexivity|].
  unfold filteredDocuments. f_equal.
  set (L := if negb (String.eqb pathId "all")
            then pathFilter pathId D else D).
  assert (HL : incl L D).
  { subst L. destruct (negb _); [|apply incl_refl].
    destruct (pathFilter_IsFilter pathId) as [keep ->]. apply incl_filter. }
  unfold searchFilter. destruct (truthy q); [|reflexivity].
  rewrite (toLowerCase_ascii _ Hq). cbn [toLowerCase asciiCasing].
  apply filter_ext_in. intros d Hd. apply matchesQuery_ascii.
  rewrite forallb_forall in HD. now apply HD, HL.
Qed.
End WithCasing.
End FilterFacts.

(* ================================================================= *)
(** * The filter engine: stated properties *)

Import Js FileExplorer.

(** C1.  For every document collection [D], the engine applied to the
    path [['all']] and the empty query returns [D] itself, every document
    in its original position. *)
Theorem filteredDocuments_all_empty_query {casing : Casing} :
  forall D : list Document.t, filteredDocuments D ["all"] "" = Ok D.
Proof. reflexivity. Qed.

(** C2.  When the first path element is not ['all'] and holds a dash, it
    is tokenized on the dash ([t0 :: t1 :: more], which join back to the
    element and hold no dash themselves); the project restriction is
    [t0-t1], the third token, if present, restricts the phase and the
    fourth, if present, the discipline, all composed with AND.  An element
    with no dash is a bare project restriction.  On the two-document
    collection of the scenarios the path [['proj-1-Design-Civil']] with the
    empty query returns exactly [[d1]]. *)
Theorem filteredDocuments_decodes_path {casing : Casing} :
  (forall (D : list Document.t) (pathId : string) (rest : list string)
          (q : string),
      pathId <> "all"%string ->
      (includes pathId "-" = true ->
       exists t0 t1 more,
         split "-" pathId = t0 :: t1 :: more
         /\ join "-" (t0 :: t1 :: more) = pathId
         /\ Forall (fun t => includes t "-" = false) (t0 :: t1 :: more)
         /\ filteredDocuments D (pathId :: rest) q
            = Ok (searchFilter q (filter (Spec.restriction t0 t1 more) D)))
      /\ (includes pathId "-" = false ->
          filteredDocuments D (pathId :: rest) q
          = Ok (searchFilter q
                  (filter (fun d => String.eqb (Document.projectId d) pathId)
                          D))))
  /\ (forall c1 o1 c2 o2,
        filteredDocuments [Scenario.d1 c1 o1; Scenario.d2 c2 o2]
                          ["proj-1-Design-Civil"] ""
        = Ok [Scenario.d1 c1 o1]).
Proof.
  split; [|reflexivity].
  intros D pathId rest q Hall.
  assert (E : String.eqb pathId "all" = false)
    by now apply String.eqb_neq.
  unfold filteredDocuments, pathFilter. rewrite E. simpl negb. cbv iota.
  split; intros Hdash; rewrite Hdash; [|reflexivity].
  destruct (JsFacts.split_two "-" pathId Hdash) as [t0 [t1 [more Es]]].
  exists t0, t1, more.
  pose proof (JsFacts.join_split "-" pathId) as Hj.
  pose proof (JsFacts.split_tokens "-" pathId) as Ht.
  rewrite Es in *. repeat split; trivial.
  do 2 f_equal. unfold Spec.restriction, at_.
  destruct more as [|ph [|di more]]; simpl;
    rewrite ?ListFacts.filter_twice; apply filter_ext; intros d;
    now rewrite ?andb_true_r, ?andb_assoc.
Qed.

Lemma filteredDocuments_decodes_path_witness :
  exists t0 t1 more,
    split "-" "proj-1-Design" = t0 :: t1 :: more
    /\ join "-" (t0 :: t1 :: more) = "proj-1-Design"%string
    /\ Forall (fun t => includes t "-" = false) (t0 :: t1 :: more)
    /\ filteredDocuments (casing := asciiCasing)
         [Scenario.d1 "Drawing" None; Scenario.d3] ["proj-1-Design"] "plan"
       = Ok (searchFilter (casing := asciiCasing) "plan"
               (filter (Spec.restriction t0 t1 more)
                       [Scenario.d1 "Drawing" None; Scenario.d3])).
Proof.
  apply (proj1 (filteredDocuments_decodes_path (casing := asciiCasing))
               [Scenario.d1 "Drawing" None; Scenario.d3]
               "proj-1-Design"%string [] "plan"%string).
  - discriminate.
  - reflexivity.
Defined.

(** C5, as the specification words it, fails, whatever the case
    conversion is outside ASCII: a query that is a proper part of a tag,
    and of nothing else, keeps the document. *)
Lemma searchMatches_tag_counterexample :
  (forall casing : Casing,
      filteredDocuments [Scenario.d1 "Drawing" None] ["all"] "struct"
      = Ok [Scenario.d1 "Drawing" None])
  /\ (forall casing : Casing,
        filter (Spec.searchMatches "struct") [Scenario.d1 "Drawing" None]
        = [])
  /\ (forall casing : Casing,
        filteredDocuments [Scenario.d1 "Drawing" None] ["all"] "struct"
        <> Ok (filter (Spec.searchMatches "struct")
                      [Scenario.d1 "Drawing" None])).
Proof.
  assert (H1 : forall casing : Casing,
             filteredDocuments [Scenario.d1 "Drawing" None] ["all"] "struct"
             = Ok [Scenario.d1 "Drawing" None]).
  { intros casing. now rewrite FilterFacts.filteredDocuments_ascii. }
  assert (H2 : forall casing : Casing,
             filter (Spec.searchMatches "struct")
                    [Scenario.d1 "Drawing" None] = []).
  { intros casing. cbn [filter].
    now rewrite FilterFacts.searchMatches_ascii. }
  split; [exact H1|]. split; [exact H2|].
  intros casing. rewrite H1, H2. discriminate.
Qed.

(** C5, amended.  For a non-empty query [q] the search stage keeps, in
    order, exactly the documents for which the lower-cased [q] is a
    substring of the lower-cased name, or of at least one lower-cased tag,
    or of the lower-cased category, or of the lower-cased description when
    there is one; two non-empty queries with the same lower-casing,
    such as "civil" and "CIVIL", give the same result on every path. *)
Theorem searchFilter_retains {casing : Casing} :
  forall (D : list Document.t) (q : string),
    q <> ""%string ->
    searchFilter q D = filter (matchesQuery (toLowerCase q)) D
    /\ (forall d,
          matchesQuery (toLowerCase q) d = true <->
          Substring (toLowerCase q) (toLowerCase (Document.name d))
          \/ (exists t, In t (Document.tags d)
                        /\ Substring (toLowerCase q) (toLowerCase t))
          \/ Substring (toLowerCase q) (toLowerCase (Document.category d))
          \/ (exists s, Document.description d = Some s
                        /\ Substring (toLowerCase q) (toLowerCase s)))
    /\ (forall q' p,
          q' <> ""%string -> toLowerCase q' = toLowerCase q ->
          filteredDocuments D p q' = filteredDocuments D p q)
    /\ (forall p, filteredDocuments D p "civil" = filteredDocuments D p "CIVIL").
Proof.
  intros D q Hq. split; [now apply FilterFacts.searchFilter_nonempty|].
  split; [intros d; apply FilterFacts.matchesQuery_spec|].
  split.
  - intros q' p Hq' E. apply FilterFacts.filteredDocuments_same_case;
      [|exact E].
    apply JsFacts.truthy_iff in Hq, Hq'. congruence.
  - intros p. apply FilterFacts.filteredDocuments_same_case;
      [reflexivity|].
    now rewrite !toLowerCase_ascii.
Qed.

Lemma searchFilter_retains_witness :
  searchFilter (casing := asciiCasing) "Struct"
               [Scenario.d1 "Drawing" None; Scenario.d3]
  = filter (matchesQuery (casing := asciiCasing)
                         (toLowerCase (Casing := asciiCasing) "Struct"))
           [Scenario.d1 "Drawing" None; Scenario.d3].
Proof.
  apply (searchFilter_retains (casing := asciiCasing)
           [Scenario.d1 "Drawing" None; Scenario.d3] "Struct"%string).
  discriminate.
Defined.

(** C8.  Filtering is idempotent: filtering the result again by the same
    path and query gives the same result; on a non-empty path there is such
    a result, and on the empty path both sides throw alike. *)
Theorem filteredDocuments_idempotent {casing : Casing} :
  forall (D : list Document.t) (p : list string) (q : string),
    bind (filteredDocuments D p q) (fun R => filteredDocuments R p q)
    = filteredDocuments D p q
    /\ (p <> [] ->
        exists R, filteredDocuments D p q = Ok R
                  /\ filteredDocuments R p q = Ok R).
Proof.
  intros D [|pathId rest] q.
  - split; [reflexivity|congruence].
  - destruct (FilterFacts.filteredDocuments_IsFilter pathId rest q)
      as [F [HF H]].
    assert (Hidem : filteredDocuments (F D) (pathId :: rest) q = Ok (F D))
      by now rewrite H, ListFacts.IsFilter_idem.
    split.
    + rewrite H. exact Hidem.
    + intros _. exists (F D). now split.
Qed.

Lemma filteredDocuments_idempotent_witness :
  exists R,
    filteredDocuments (casing := asciiCasing)
      [Scenario.d1 "Drawing" None; Scenario.d3] ["proj-1-Design"] "plan"
    = Ok R
    /\ filteredDocuments (casing := asciiCasing) R ["proj-1-Design"] "plan"
       = Ok R.
Proof.
  apply (filteredDocuments_idempotent (casing := asciiCasing)
           [Scenario.d1 "Drawing" None; Scenario.d3]
           ["proj-1-Design"%string] "plan"%string).
  discriminate.
Defined.

(** C10.  A query of whitespace only is not the empty query: the search
    stage runs and compares the whitespace string itself, untrimmed,
    against the lower-cased fields of what the path stage kept.  A blank
    keeps "Bridge Plan" and drops "Budget.xlsx", which the empty query
    keeps. *)
Theorem whitespace_query_is_searched {casing : Casing} :
  (forall (D R : list Document.t) (pathId : string) (rest : list string)
          (q : string),
      whitespaceOnly q = true ->
      filteredDocuments D (pathId :: rest) "" = Ok R ->
      filteredDocuments D (pathId :: rest) q
      = Ok (filter (matchesQuery q) R))
  /\ filteredDocuments [Scenario.d1 "Drawing" None; Scenario.d3] ["all"] " "
     = Ok [Scenario.d1 "Drawing" None]
  /\ filteredDocuments [Scenario.d1 "Drawing" None; Scenario.d3] ["all"] ""
     = Ok [Scenario.d1 "Drawing" None; Scenario.d3].
Proof.
  split; [|split; [|reflexivity]];
    [|now rewrite FilterFacts.filteredDocuments_ascii].
  intros D R pathId rest q Hw. unfold whitespaceOnly in Hw.
  apply andb_true_iff in Hw as [Hne Hws].
  unfold filteredDocuments, searchFilter. rewrite Hne. simpl truthy. cbv iota.
  intros E. injection E as <-.
  now rewrite (JsFacts.toLowerCase_whitespace q Hws).
Qed.

Lemma whitespace_query_is_searched_witness :
  filteredDocuments (casing := asciiCasing)
    [Scenario.d1 "Drawing" None; Scenario.d3] ["proj-1"] "  "
  = Ok (filter (matchesQuery (casing := asciiCasing) "  ")
               [Scenario.d1 "Drawing" None]).
Proof.
  apply (proj1 (whitespace_query_is_searched (casing := asciiCasing))
               [Scenario.d1 "Drawing" None; Scenario.d3]).
  - reflexivity.
  - reflexivity.
Defined.

(* ================================================================= *)
(** * The folder tree builder *)

(** ** The map *)

Module MapFacts.
Import Js Aux.

Section Upsert.
Context {V : Type}.
Implicit Types (m : JsMap.t V) (k : string) (fresh : V) (f : V -> V).

(** Lines 55-66, then the mutation of the node: never [undefined]. *)
Lemma get_after_ensure m k fresh f (e : string) :
  let m1 := if negb (JsMap.has m k) then JsMap.set m k fresh else m in
  match JsMap.get m1 k with
  | None => Throw e
  | Some v => Ok (JsMap.set m1 k (f v))
  end = Ok (upsert m k fresh f).
Proof.
  induction m as [|[k' v] m IH]; simpl.
  - now rewrite String.eqb_refl.
  - destruct (String.eqb k' k) eqn:E; simpl.
    + now rewrite E.
    + simpl in IH. destruct (JsMap.has m k); simpl in *; rewrite E;
        destruct (JsMap.get _ k); simpl; rewrite ?E;
        now inversion IH.
Qed.

Lemma has_keys m k : JsMap.has m k = true <-> In k (JsMap.keys m).
Proof.
  induction m as [|[k' v] m IH]; simpl; [split; [discriminate|tauto]|].
  destruct (String.eqb k' k) eqn:E.
  - apply String.eqb_eq in E. tauto.
  - apply String.eqb_neq in E. rewrite IH. tauto.
Qed.

Lemma has_In m k : JsMap.has m k = true -> exists v, In (k, v) m.
Proof.
  induction m as [|[k' v] m IH]; simpl; [discriminate|].
  destruct (String.eqb k' k) eqn:E.
  - apply String.eqb_eq in E as ->. intros _. exists v. now left.
  - intros H. destruct (IH H) as [v' Hv']. exists v'. now right.
Qed.

Lemma upsert_keys m k fresh f :
  JsMap.keys (upsert m k fresh f)
  = if JsMap.has m k then JsMap.keys m else JsMap.keys m ++ [k].
Proof.
  induction m as [|[k' v] m IH]; simpl; [reflexivity|].
  destruct (String.eqb k' k); simpl; [reflexivity|].
  rewrite IH. now destruct (JsMap.has m k).
Qed.

Lemma upsert_has m k fresh f : JsMap.has (upsert m k fresh f) k = true.
Proof.
  apply has_keys. rewrite upsert_keys.
  destruct (JsMap.has m k) eqn:E;
    [now apply has_keys|apply in_or_app; right; now left].
Qed.

Lemma upsert_has_mono m k k' fresh f :
  JsMap.has m k' = true -> JsMap.has (upsert m k fresh f) k' = true.
Proof.
  rewrite !has_keys, upsert_keys. intros H.
  destruct (JsMap.has m k); [exact H|apply in_or_app; now left].
Qed.

Lemma upsert_NoDup m k fresh f :
  NoDup (JsMap.keys m) -> NoDup (JsMap.keys (upsert m k fresh f)).
Proof.
  intros H. rewrite upsert_keys. destruct (JsMap.has m k) eqn:E; [exact H|].
  apply NoDup_app; [exact H|repeat constructor; intros []|].
  intros x Hx [<-|[]]. apply has_keys in Hx. congruence.
Qed.

Lemma upsert_Forall (P : string -> V -> Prop) m k fresh f :
  Forall (fun kv => P (fst kv) (snd kv)) m ->
  P k (f fresh) ->
  (forall v, In (k, v) m -> P k v -> P k (f v)) ->
  Forall (fun kv => P (fst kv) (snd kv)) (upsert m k fresh f).
Proof.
  intros Hm Hfresh Hf. induction m as [|[k' v] m IH]; simpl.
  - now repeat constructor.
  - inversion Hm as [|? ? Hv Hm']; subst. simpl in Hv.
    destruct (String.eqb k' k) eqn:E.
    + apply String.eqb_eq in E as ->. constructor; [|exact Hm'].
      apply Hf; [now left|exact Hv].
    + constructor; [exact Hv|]. apply IH; [exact Hm'|].
      intros v' Hin. apply Hf. now right.
Qed.

Lemma upsert_ext m k fresh f f' :
  f fresh = f' fresh ->
  (forall v, In (k, v) m -> f v = f' v) ->
  upsert m k fresh f = upsert m k fresh f'.
Proof.
  intros Hfresh Hf. induction m as [|[k' v] m IH]; simpl.
  - now rewrite Hfresh.
  - destruct (String.eqb k' k) eqn:E.
    + apply String.eqb_eq in E as ->. rewrite Hf; [reflexivity|now left].
    + rewrite IH; [reflexivity|]. intros v' Hin. apply Hf. now right.
Qed.

(** One round adds to the sum of [g] what [f] adds to one value. *)
Lemma upsert_sum (g : V -> nat) m k fresh f :
  g fresh = 0 ->
  (forall v, g (f v) = g v + 1) ->
  list_sum (map g (JsMap.values (upsert m k fresh f)))
  = list_sum (map g (JsMap.values m)) + 1.
Proof.
  intros Hfresh Hf. unfold JsMap.values.
  induction m as [|[k' v] m IH]; simpl.
  - rewrite Hf, Hfresh. reflexivity.
  - destruct (String.eqb k' k); simpl; [rewrite Hf|rewrite IH]; lia.
Qed.
End Upsert.
End MapFacts.

(** ** Find or create *)

Module FindFacts.
Import FileExplorer.

Section FindOrCreate.
Context {A : Type}.
Implicit Types (p : A -> bool) (fresh : A) (touch : A -> A) (cs : list A).

Lemma findOrCreate_cons p fresh touch c cs :
  findOrCreate p fresh touch (c :: cs)
  = if p c then touch c :: cs else c :: findOrCreate p fresh touch cs.
Proof.
  unfold findOrCreate. simpl. destruct (p c); [reflexivity|].
  now destruct (find p cs).
Qed.

Lemma findOrCreate_Forall (Q : A -> Prop) p fresh touch cs :
  Forall Q cs ->
  Q (touch fresh) ->
  (forall c, In c cs -> Q c -> p c = true -> Q (touch c)) ->
  Forall Q (findOrCreate p fresh touch cs).
Proof.
  intros Hcs Hfresh Htouch. induction cs as [|c cs IH].
  - now repeat constructor.
  - rewrite findOrCreate_cons. inversion Hcs as [|? ? Hc Hcs']; subst.
    destruct (p c) eqn:E.
    + constructor; [|exact Hcs']. apply Htouch; [now left|exact Hc|exact E].
    + constructor; [exact Hc|]. apply IH; [exact Hcs'|].
      intros c' Hin. apply Htouch. now right.
Qed.

Lemma findOrCreate_ext p p' fresh touch touch' cs :
  (forall c, In c cs -> p' c = p c) ->
  (forall c, In c cs -> p c = true -> touch' c = touch c) ->
  touch' fresh = touch fresh ->
  findOrCreate p' fresh touch' cs = findOrCreate p fresh touch cs.
Proof.
  intros Hp Ht Hfresh. induction cs as [|c cs IH].
  - unfold findOrCreate. simpl. now rewrite Hfresh.
  - rewrite !findOrCreate_cons, (Hp c) by now left.
    destruct (p c) eqn:E.
    + rewrite (Ht c); [reflexivity|now left|exact E].
    + rewrite IH; [reflexivity| |]; intros c' Hin; [apply Hp|apply Ht];
        now right.
Qed.

(** What [g] reads is what it read before, with [fresh] last when
    nothing was found. *)
Lemma findOrCreate_map {B} (g : A -> B) p fresh touch cs :
  (forall c, g (touch c) = g c) ->
  map g (findOrCreate p fresh touch cs)
  = if existsb p cs then map g cs else map g cs ++ [g fresh].
Proof.
  intros Hg. induction cs as [|c cs IH].
  - unfold findOrCreate. simpl. now rewrite Hg.
  - rewrite findOrCreate_cons. simpl. destruct (p c); simpl.
    + now rewrite Hg.
    + rewrite IH. now destruct (existsb p cs).
Qed.
End FindOrCreate.

(** Lookup by name keeps the names of siblings distinct. *)
Lemma findOrCreate_distinctNames (x : string) p fresh touch cs :
  (forall c, FolderNode.name (touch c) = FolderNode.name c) ->
  (forall c, p c = String.eqb (FolderNode.name c) x) ->
  FolderNode.name fresh = x ->
  Aux.distinctNames cs ->
  Aux.distinctNames (findOrCreate p fresh touch cs).
Proof.
  unfold Aux.distinctNames. intros Ht Hp Hfresh Hcs.
  rewrite (findOrCreate_map FolderNode.name) by exact Ht.
  destruct (existsb p cs) eqn:E; [exact Hcs|].
  apply NoDup_app; [exact Hcs|repeat constructor; intros []|].
  intros y Hy [<-|[]]. apply in_map_iff in Hy as [c [Hc Hin]].
  assert (existsb p cs = true); [|congruence].
  apply existsb_exists. exists c. split; [exact Hin|].
  rewrite Hp, Hc, Hfresh. apply String.eqb_refl.
Qed.
End FindFacts.

(** ** The nodes *)

Module NodeFacts.
Import Js FileExplorer Aux JsFacts FindFacts.

Lemma dash_assoc (a b c : string) :
  ((a ++ "-" ++ b) ++ "-" ++ c = a ++ "-" ++ b ++ "-" ++ c)%string.
Proof. now rewrite append_assoc. Qed.

(** Under the parent [a], the id is the wanted one exactly when the
    name is. *)
Lemma idUnder_eqb (a x : string) (c : FolderNode.t) :
  idUnder a c ->
  String.eqb (FolderNode.id c) (a ++ "-" ++ x)
  = String.eqb (FolderNode.name c) x.
Proof.
  unfold idUnder. intros ->. rewrite eqb_append_l. simpl.
  reflexivity.
Qed.

Lemma touchPhaseWith_children sd doc c :
  FolderNode.childrenOrEmpty (touchPhaseWith sd doc c)
  = findOrCreate sd (newDisciplineNode doc) touchDiscipline
      (FolderNode.childrenOrEmpty c).
Proof. reflexivity. Qed.

Lemma touchProjectWith_children sp sd doc n :
  FolderNode.childrenOrEmpty (touchProjectWith sp sd doc n)
  = findOrCreate sp (newPhaseNode doc) (touchPhaseWith sd doc)
      (FolderNode.childrenOrEmpty n).
Proof. reflexivity. Qed.

Lemma touchProjectWith_count sp sd doc n :
  FolderNode.countOrZero (touchProjectWith sp sd doc n)
  = FolderNode.countOrZero n + 1.
Proof. reflexivity. Qed.

(** A phase node of the document's project and phase stays well formed
    when the document is merged into it. *)
Lemma touchPhase_wf doc c :
  idUnder (Document.projectId doc) c ->
  FolderNode.name c = phaseStr (Document.phase doc) ->
  distinctNames (FolderNode.childrenOrEmpty c) ->
  Forall (idUnder (FolderNode.id c)) (FolderNode.childrenOrEmpty c) ->
  wfPhase (Document.projectId doc)
          (touchPhaseWith (disciplineByName doc) doc c).
Proof.
  intros Hid Hname Hnd Hids. unfold wfPhase.
  rewrite touchPhaseWith_children. split; [exact Hid|]. split.
  - now apply (findOrCreate_distinctNames
                 (disciplineStr (Document.discipline doc))).
  - change (FolderNode.id (touchPhaseWith (disciplineByName doc) doc c))
      with (FolderNode.id c).
    apply findOrCreate_Forall; [exact Hids| |now intros g _ Hg _].
    unfold idUnder in *. simpl. rewrite Hid, Hname. symmetry.
    apply dash_assoc.
Qed.

Lemma touchPhase_new_wf doc :
  wfPhase (Document.projectId doc)
          (touchPhaseWith (disciplineByName doc) doc (newPhaseNode doc)).
Proof.
  apply touchPhase_wf; try reflexivity; constructor.
Qed.

Lemma touchProject_wf projects doc n :
  wfProject projects (Document.projectId doc) n ->
  wfProject projects (Document.projectId doc)
            (touchProjectWith (phaseByName doc) (disciplineByName doc)
                              doc n).
Proof.
  intros [Hid [Hname [_ [Hnd [Hcs Hty]]]]]. unfold wfProject.
  rewrite touchProjectWith_children.
  split; [exact Hid|]. split; [exact Hname|]. split; [discriminate|].
  split; [|split; [|exact Hty]].
  - now apply (findOrCreate_distinctNames
                 (phaseStr (Document.phase doc))).
  - apply findOrCreate_Forall; [exact Hcs|apply touchPhase_new_wf|].
    intros c _ [Hc [Hc1 Hc2]] E. apply String.eqb_eq in E.
    now apply touchPhase_wf.
Qed.

Lemma newProjectNode_wf projects doc :
  wfProject projects (Document.projectId doc)
    (newProjectNode (projectName projects (Document.projectId doc)) doc).
Proof.
  unfold wfProject. simpl.
  repeat split; try discriminate; constructor.
Qed.

(** One round of the loop keeps the map well formed. *)
Lemma step_wf projects m doc :
  wfMap projects m ->
  wfMap projects (step projects phaseByName disciplineByName m doc).
Proof.
  intros [Hk Hm]. split; [now apply MapFacts.upsert_NoDup|].
  apply (MapFacts.upsert_Forall (wfProject projects)); [exact Hm| |].
  - apply touchProject_wf, newProjectNode_wf.
  - intros v _. apply touchProject_wf.
Qed.

Lemma fold_step_wf projects docs m :
  wfMap projects m ->
  wfMap projects
        (fold_left (step projects phaseByName disciplineByName) docs m).
Proof.
  revert m. induction docs as [|doc docs IH]; intros m Hm; simpl;
    [exact Hm|]. now apply IH, step_wf.
Qed.

Lemma wfMap_empty projects : wfMap projects [].
Proof. split; constructor. Qed.

(** *** Lookup by id against lookup by name *)

Lemma touchPhase_byId doc c :
  wfPhase (Document.projectId doc) c ->
  FolderNode.name c = phaseStr (Document.phase doc) ->
  touchPhaseWith (Spec.disciplineById doc) doc c
  = touchPhaseWith (disciplineByName doc) doc c.
Proof.
  intros [Hid [_ Hids]] Hname. unfold touchPhaseWith. do 2 f_equal.
  apply findOrCreate_ext; try reflexivity.
  intros g Hg. change (FolderNode.childrenOrEmpty (bump c))
    with (FolderNode.childrenOrEmpty c) in Hg.
  rewrite Forall_forall in Hids. specialize (Hids g Hg).
  unfold Spec.disciplineById, disciplineByName.
  rewrite <- dash_assoc, <- Hname, <- Hid. now apply idUnder_eqb.
Qed.

Lemma touchProject_byId projects doc n :
  wfProject projects (Document.projectId doc) n ->
  touchProjectWith (Spec.phaseById doc) (Spec.disciplineById doc) doc n
  = touchProjectWith (phaseByName doc) (disciplineByName doc) doc n.
Proof.
  intros [_ [_ [_ [_ [Hcs _]]]]]. unfold touchProjectWith. do 2 f_equal.
  change (FolderNode.childrenOrEmpty (bump n))
    with (FolderNode.childrenOrEmpty n).
  rewrite Forall_forall in Hcs.
  apply findOrCreate_ext; [| |reflexivity].
  - intros c Hc. destruct (Hcs c Hc) as [Hid _].
    now apply idUnder_eqb.
  - intros c Hc E. apply String.eqb_eq in E.
    now apply touchPhase_byId; [apply Hcs|].
Qed.

Lemma step_byId projects m doc :
  wfMap projects m ->
  step projects Spec.phaseById Spec.disciplineById m doc
  = step projects phaseByName disciplineByName m doc.
Proof.
  intros [_ Hm]. apply MapFacts.upsert_ext; [reflexivity|].
  intros v Hv. rewrite Forall_forall in Hm.
  apply (touchProject_byId projects), (Hm _ Hv).
Qed.

Lemma fold_step_byId projects docs m :
  wfMap projects m ->
  fold_left (step projects Spec.phaseById Spec.disciplineById) docs m
  = fold_left (step projects phaseByName disciplineByName) docs m.
Proof.
  revert m. induction docs as [|doc docs IH]; intros m Hm; simpl;
    [reflexivity|].
  rewrite step_byId by exact Hm. now apply IH, step_wf.
Qed.

(** *** The loop *)

(** The loop never throws: it is the fold of [step]. *)
Lemma forEach_addDocumentWith projects sp sd docs m :
  forEach (addDocumentWith projects sp sd) docs m
  = Ok (fold_left (step projects sp sd) docs m).
Proof.
  revert m. induction docs as [|doc docs IH]; intros m; simpl;
    [reflexivity|].
  unfold addDocumentWith at 1.
  rewrite (MapFacts.get_after_ensure m (Document.projectId doc)).
  simpl. apply IH.
Qed.

Lemma folderTreeWith_fold projects sp sd docs :
  folderTreeWith (addDocumentWith projects sp sd) docs
  = Ok [rootNode docs (fold_left (step projects sp sd) docs [])].
Proof.
  unfold folderTreeWith. now rewrite forEach_addDocumentWith.
Qed.
End NodeFacts.

(** ** The finished tree *)

Module TreeFacts.
Import Js FileExplorer Aux JsFacts NodeFacts.

(** Induction on a node, its children taken as already settled. *)
Lemma node_ind (P : FolderNode.t -> Prop) :
  (forall n, Forall P (FolderNode.childrenOrEmpty n) -> P n) ->
  forall n, P n.
Proof.
  intros H. fix IH 1. intros n. apply H.
  destruct n as [i nm ty [cs|] dc pi ph di];
    unfold FolderNode.childrenOrEmpty; simpl; [|constructor].
  induction cs as [|c cs IHcs]; constructor; [apply IH|exact IHcs].
Qed.

Lemma distinctIds_values projects m :
  wfMap projects m -> distinctIds (JsMap.values m).
Proof.
  intros [Hk Hm]. unfold distinctIds, JsMap.values, JsMap.keys in *.
  rewrite map_map.
  rewrite (map_ext_in _ fst); [exact Hk|].
  rewrite Forall_forall in Hm. intros kv Hkv. now destruct (Hm kv Hkv).
Qed.

(** Siblings with distinct names and ids built from the names have
    distinct ids. *)
Lemma distinctIds_of_names (a : string) (cs : list FolderNode.t) :
  distinctNames cs -> Forall (idUnder a) cs -> distinctIds cs.
Proof.
  unfold distinctNames, distinctIds.
  induction cs as [|c cs IH]; simpl; intros Hn Hid; [constructor|].
  inversion Hn as [|? ? Hc Hn']; inversion Hid as [|? ? Hidc Hid']; subst.
  constructor; [|now apply IH].
  intros Hin. apply Hc. apply in_map_iff in Hin as [c' [E Hc']].
  apply in_map_iff. exists c'. split; [|exact Hc'].
  rewrite Forall_forall in Hid'. specialize (Hid' c' Hc').
  unfold idUnder in *. rewrite Hidc, Hid' in E.
  now apply append_inj_l in E; injection E.
Qed.

Lemma wfPhase_distinctIds k c :
  wfPhase k c -> distinctIds (FolderNode.childrenOrEmpty c).
Proof.
  intros [_ [Hn Hid]]. now apply (distinctIds_of_names (FolderNode.id c)).
Qed.

Lemma wfProject_distinctIds projects k n :
  wfProject projects k n ->
  distinctIds (FolderNode.childrenOrEmpty n)
  /\ Forall (fun c => distinctIds (FolderNode.childrenOrEmpty c))
            (FolderNode.childrenOrEmpty n).
Proof.
  intros [_ [_ [_ [Hn [Hcs _]]]]]. split.
  - apply (distinctIds_of_names k _ Hn).
    eapply Forall_impl; [|exact Hcs]. now intros c [Hc _].
  - eapply Forall_impl; [|exact Hcs]. apply wfPhase_distinctIds.
Qed.

Lemma fold_step_total projects sp sd docs m :
  totalCount (JsMap.values (fold_left (step projects sp sd) docs m))
  = totalCount (JsMap.values m) + List.length docs.
Proof.
  revert m. induction docs as [|doc docs IH]; intros m; simpl; [lia|].
  rewrite IH. unfold totalCount, step.
  rewrite MapFacts.upsert_sum; [lia|reflexivity|].
  intros v. apply touchProjectWith_count.
Qed.

Lemma fold_step_has_mono projects sp sd docs m k :
  JsMap.has m k = true ->
  JsMap.has (fold_left (step projects sp sd) docs m) k = true.
Proof.
  revert m. induction docs as [|doc docs IH]; intros m H; simpl;
    [exact H|]. now apply IH, MapFacts.upsert_has_mono.
Qed.

(** Every document has its project's key in the map. *)
Lemma fold_step_has projects sp sd docs m doc :
  In doc docs ->
  JsMap.has (fold_left (step projects sp sd) docs m)
            (Document.projectId doc) = true.
Proof.
  revert m. induction docs as [|d docs IH]; intros m Hin;
    [destruct Hin|]. simpl. destruct Hin as [->|Hin].
  - apply fold_step_has_mono, MapFacts.upsert_has.
  - now apply IH.
Qed.

Lemma projectName_unknown projects k :
  (forall p, In p projects -> Project.id p <> k) ->
  projectName projects k = "Unknown Project"%string.
Proof.
  intros H. unfold projectName.
  destruct (find _ projects) as [p|] eqn:E; [|reflexivity].
  apply find_some in E as [Hin E]. apply String.eqb_eq in E.
  now apply H in Hin.
Qed.

(** A path handed to [onSelect] starts with the parent path and the
    node's id. *)
Lemma TreeNode_prefix (node : FolderNode.t) :
  forall parentPath p,
    In p (FolderTree.TreeNode parentPath node) ->
    exists suffix, p = parentPath ++ FolderNode.id node :: suffix.
Proof.
  induction node as [node IH] using node_ind. intros parentPath p.
  destruct node as [i nm ty ch dc pi ph di]. simpl.
  intros [<-|Hin]; [now exists []|].
  destruct ch as [cs|]; [|destruct Hin].
  apply in_flat_map in Hin as [c [Hc Hin]].
  rewrite Forall_forall in IH. apply (IH c Hc) in Hin as [suffix ->].
  exists (FolderNode.id c :: suffix). now rewrite <- app_assoc.
Qed.
End TreeFacts.

(* ================================================================= *)
(** * The folder tree builder: stated properties *)

Import Aux.

(** C3.  The tree the builder produces, which looks a sibling up by its
    display name, is the tree produced with lookup by the exact composite
    id ([projectId-phase], [projectId-phase-discipline]); and in it no two
    siblings share an id, at the project, phase and discipline levels. *)
Theorem folderTree_lookup_by_id :
  forall (projects : list Project.t) (D : list Document.t),
    folderTree projects D = Spec.folderTree_byId projects D
    /\ exists root,
         folderTree projects D = Ok [root]
         /\ distinctIds (FolderNode.childrenOrEmpty root)
         /\ Forall (fun project =>
                      distinctIds (FolderNode.childrenOrEmpty project)
                      /\ Forall (fun phase =>
                                   distinctIds
                                     (FolderNode.childrenOrEmpty phase))
                                (FolderNode.childrenOrEmpty project))
                   (FolderNode.childrenOrEmpty root).
Proof.
  intros projects D. unfold folderTree, Spec.folderTree_byId, addDocument.
  rewrite !NodeFacts.folderTreeWith_fold.
  pose proof (NodeFacts.fold_step_wf projects D []
                (NodeFacts.wfMap_empty projects)) as Hwf.
  split.
  - now rewrite NodeFacts.fold_step_byId by apply NodeFacts.wfMap_empty.
  - eexists. split; [reflexivity|].
    unfold FolderNode.childrenOrEmpty, rootNode; cbn [FolderNode.children].
    split; [now apply (TreeFacts.distinctIds_values projects)|].
    destruct Hwf as [_ Hm]. unfold JsMap.values.
    apply Forall_map. eapply Forall_impl; [|exact Hm].
    intros [k n]. apply TreeFacts.wfProject_distinctIds.
Qed.

(** C4.  The builder produces exactly one root node, with id ['all'],
    kind project and a [documentCount] that is the length of [D]; on no
    documents the root has count 0 and no children. *)
Theorem folderTree_root :
  forall (projects : list Project.t) (D : list Document.t),
    (exists cs,
       folderTree projects D
       = Ok [FolderNode.mk "all" "All Documents" TProject (Some cs)
               (Some (List.length D)) None None None])
    /\ folderTree projects []
       = Ok [FolderNode.mk "all" "All Documents" TProject (Some [])
               (Some 0) None None None].
Proof.
  intros projects D. split; [|reflexivity].
  unfold folderTree, addDocument. rewrite NodeFacts.folderTreeWith_fold.
  eexists. reflexivity.
Qed.

(** C7.  In the tree built from [D], the [documentCount] of the
    children of the root, each of which has one, sum to the
    [documentCount] of the root. *)
Theorem folderTree_children_sum :
  forall (projects : list Project.t) (D : list Document.t),
    exists root,
      folderTree projects D = Ok [root]
      /\ FolderNode.documentCount root = Some (List.length D)
      /\ Forall (fun c => FolderNode.documentCount c <> None)
                (FolderNode.childrenOrEmpty root)
      /\ totalCount (FolderNode.childrenOrEmpty root)
         = FolderNode.countOrZero root.
Proof.
  intros projects D. unfold folderTree, addDocument.
  rewrite NodeFacts.folderTreeWith_fold.
  eexists. split; [reflexivity|]. split; [reflexivity|].
  split.
  - destruct (NodeFacts.fold_step_wf projects D []
                (NodeFacts.wfMap_empty projects)) as [_ Hm].
    unfold FolderNode.childrenOrEmpty, rootNode; cbn [FolderNode.children].
    unfold JsMap.values. apply Forall_map. eapply Forall_impl; [|exact Hm].
    now intros [k n] [_ [_ [Hc _]]].
  - change (totalCount
              (JsMap.values
                 (fold_left (step projects phaseByName disciplineByName)
                            D []))
            = List.length D).
    now rewrite TreeFacts.fold_step_total.
Qed.

(** C9.  The builder never throws, whatever the projects and the
    documents; and a document whose [projectId] is the id of no project
    has a project node under the root, with that id and the name
    'Unknown Project'. *)
Theorem folderTree_unknown_project :
  (forall (projects : list Project.t) (D : list Document.t),
      exists root, folderTree projects D = Ok [root])
  /\ (forall (projects : list Project.t) (D : list Document.t)
             (doc : Document.t),
        In doc D ->
        (forall p, In p projects -> Project.id p <> Document.projectId doc) ->
        exists root node,
          folderTree projects D = Ok [root]
          /\ In node (FolderNode.childrenOrEmpty root)
          /\ FolderNode.type node = TProject
          /\ FolderNode.id node = Document.projectId doc
          /\ FolderNode.name node = "Unknown Project"%string).
Proof.
  split; intros projects D; unfold folderTree, addDocument;
    rewrite NodeFacts.folderTreeWith_fold; [now eexists|].
  intros doc Hin Hunknown.
  pose proof (TreeFacts.fold_step_has projects phaseByName disciplineByName
                D [] doc Hin) as Hhas.
  apply MapFacts.has_In in Hhas as [node Hnode].
  destruct (NodeFacts.fold_step_wf projects D []
              (NodeFacts.wfMap_empty projects)) as [_ Hm].
  rewrite Forall_forall in Hm.
  destruct (Hm _ Hnode) as [Hid [Hname [_ [_ [_ Hty]]]]].
  simpl in Hid, Hname, Hty.
  eexists. exists node. split; [reflexivity|].
  split; [apply in_map_iff; now exists (Document.projectId doc, node)|].
  split; [exact Hty|]. split; [exact Hid|].
  rewrite Hname. now apply TreeFacts.projectName_unknown.
Qed.

Lemma folderTree_unknown_project_witness :
  exists root node,
    folderTree [Project.mk "proj-2" "Metro Line"]
               [Scenario.d1 "Drawing" None; Scenario.d3] = Ok [root]
    /\ In node (FolderNode.childrenOrEmpty root)
    /\ FolderNode.type node = TProject
    /\ FolderNode.id node = "proj-1"%string
    /\ FolderNode.name node = "Unknown Project"%string.
Proof.
  apply (proj2 folderTree_unknown_project
               [Project.mk "proj-2" "Metro Line"]
               [Scenario.d1 "Drawing" None; Scenario.d3]
               (Scenario.d1 "Drawing" None)).
  - simpl. left. reflexivity.
  - simpl. intros p [<-|[]]. simpl. discriminate.
Defined.

(** The tree of the two-document scenario: one project node of count 2,
    two phase nodes of count 1, each with one discipline node of
    count 1. *)
Example folderTree_scenario :
  forall c1 o1 c2 o2,
    folderTree [] [Scenario.d1 c1 o1; Scenario.d2 c2 o2]
    = Ok [FolderNode.mk "all" "All Documents" TProject
            (Some
               [FolderNode.mk "proj-1" "Unknown Project" TProject
                  (Some
                     [FolderNode.mk "proj-1-Design" "Design" TPhase
                        (Some
                           [FolderNode.mk "proj-1-Design-Civil" "Civil"
                              TDiscipline (Some []) (Some 1)
                              None None (Some Civil)])
                        (Some 1) None (Some Design) None;
                      FolderNode.mk "proj-1-Execution" "Execution" TPhase
                        (Some
                           [FolderNode.mk "proj-1-Execution-Electrical"
                              "Electrical" TDiscipline (Some []) (Some 1)
                              None None (Some Electrical)])
                        (Some 1) None (Some Execution) None])
                  (Some 2) (Some "proj-1"%string) None None])
            (Some 2) None None None].
Proof. reflexivity. Qed.

(* ================================================================= *)
(** * The selected path *)

(** C6.  The result of the engine depends on the first element of the
    path only; a path that begins with ['all'] restricts nothing,
    whatever follows; and every path a click in the tree selects begins
    with ['all'], the id of the one root, so a click in the tree leaves
    the search stage alone to decide. *)
Theorem filteredDocuments_first_element {casing : Casing} :
  (forall (D : list Document.t) (q : string) (p p' : list string),
      hd_error p = hd_error p' ->
      filteredDocuments D p q = filteredDocuments D p' q)
  /\ (forall (D : list Document.t) (q : string) (rest : list string),
        filteredDocuments D ("all"%string :: rest) q
        = Ok (searchFilter q D))
  /\ (forall (projects : list Project.t) (D : list Document.t),
        exists tree,
          folderTree projects D = Ok tree
          /\ forall p q,
               In p (FolderTree.FolderTree tree) ->
               (exists rest, p = "all"%string :: rest)
               /\ filteredDocuments D p q = Ok (searchFilter q D)).
Proof.
  split; [|split].
  - intros D q [|a p] [|a' p']; simpl; try discriminate; [reflexivity|].
    now intros [= ->].
  - reflexivity.
  - intros projects D. unfold folderTree, addDocument.
    rewrite NodeFacts.folderTreeWith_fold. eexists. split; [reflexivity|].
    intros p q Hin. unfold FolderTree.FolderTree in Hin.
    cbn [flat_map] in Hin. rewrite app_nil_r in Hin.
    apply (TreeFacts.TreeNode_prefix _ []) in Hin as [suffix ->].
    split; [now exists suffix|reflexivity].
Qed.

Lemma filteredDocuments_first_element_witness :
  filteredDocuments (casing := asciiCasing)
        [Scenario.d1 "Drawing" None; Scenario.d3]
                    ["proj-1"; "proj-1-Design"] "plan"
  = filteredDocuments (casing := asciiCasing)
        [Scenario.d1 "Drawing" None; Scenario.d3]
                      ["proj-1"] "plan".
Proof.
  apply (proj1 (filteredDocuments_first_element (casing := asciiCasing))
               [Scenario.d1 "Drawing" None; Scenario.d3] "plan"%string
               ["proj-1"; "proj-1-Design"]%string ["proj-1"%string]).
  reflexivity.
Defined.

(** A click on the project node of the scenario's tree selects
    [['all'; 'proj-1']], on which both documents pass. *)
Example click_on_project_node {casing : Casing} :
  FolderTree.FolderTree
    match folderTree [] [Scenario.d1 "Drawing" None; Scenario.d3] with
    | Ok tree => tree
    | Throw _ => []
    end
  = [ ["all"]; ["all"; "proj-1"]; ["all"; "proj-1"; "proj-1-Design"];
      ["all"; "proj-1"; "proj-1-Design"; "proj-1-Design-Civil"];
      ["all"; "proj-2"]; ["all"; "proj-2"; "proj-2-Planning"];
      ["all"; "proj-2"; "proj-2-Planning"; "proj-2-Planning-General"] ]%string
  /\ filteredDocuments [Scenario.d1 "Drawing" None; Scenario.d3]
                       ["all"; "proj-1"] ""
     = Ok [Scenario.d1 "Drawing" None; Scenario.d3].
Proof. split; reflexivity. Qed.

(* ================================================================= *)
(** * Further properties of the explorer *)

(** ** Navigation *)

Module NavFacts.
Import Js FileExplorer Aux Aux2 ExplorerLayout.

Lemma folderTree_Ok projects D tree :
  folderTree projects D = Ok tree ->
  tree = [rootNode D (fold_left (step projects phaseByName disciplineByName)
                                D [])].
Proof.
  unfold folderTree, addDocument. rewrite NodeFacts.folderTreeWith_fold.
  now intros [= <-].
Qed.

Lemma click_path_from_root projects D tree p :
  folderTree projects D = Ok tree ->
  In p (FolderTree.FolderTree tree) ->
  exists rest, p = "all"%string :: rest.
Proof.
  intros Ht Hin. apply folderTree_Ok in Ht as ->.
  unfold FolderTree.FolderTree in Hin. cbn [flat_map] in Hin.
  rewrite app_nil_r in Hin.
  apply (TreeFacts.TreeNode_prefix _ []) in Hin as [suffix ->].
  now exists suffix.
Qed.

Lemma slice0_cons {A} (a : A) (l : list A) (index : Z) :
  (0 < index)%Z ->
  exists l', slice0 (a :: l) index = a :: l'.
Proof.
  intros H. unfold slice0.
  destruct (Z.ltb_spec index 0) as [Hneg|_]; [lia|].
  remember (Z.to_nat (Z.min index (Z.of_nat (List.length (a :: l))))) as k.
  assert (Hk : k <> 0) by (subst k; simpl List.length; lia).
  destruct k as [|k]; [congruence|]. simpl. now eexists.
Qed.

Lemma slice0_nil {A} (index : Z) : slice0 (@nil A) index = [].
Proof. unfold slice0. now rewrite firstn_nil. Qed.

Lemma slice0_negative {A} (l : list A) (index : Z) :
  (index <= - Z.of_nat (List.length l))%Z -> (index < 0)%Z ->
  slice0 l index = [].
Proof.
  intros H Hneg. unfold slice0.
  destruct (Z.ltb_spec index 0) as [_|?]; [|lia].
  replace (Z.to_nat _) with 0 by lia. reflexivity.
Qed.

Lemma Reachable_from_root p :
  Reachable p -> exists rest, p = "all"%string :: rest.
Proof.
  induction 1 as [|projects D tree path p _ _ Ht Hin
                  |path index _ [rest ->] Hidx].
  - now exists [].
  - now apply (click_path_from_root projects D tree).
  - unfold handleBreadcrumbClick.
    destruct (Z.eqb_spec index 0) as [_|Hne]; [now exists []|].
    apply slice0_cons. lia.
Qed.
End NavFacts.

(** X1.  On a non-empty path the engine never throws and decides
    document by document: the result is part of the collection, no longer
    than it, and the result on two collections put end to end is the two
    results put end to end. *)
Theorem filteredDocuments_selects {casing : Casing} :
  forall (D1 D2 : list Document.t) (pathId : string) (rest : list string)
         (q : string),
    exists R1 R2,
      filteredDocuments D1 (pathId :: rest) q = Ok R1
      /\ filteredDocuments D2 (pathId :: rest) q = Ok R2
      /\ filteredDocuments (D1 ++ D2) (pathId :: rest) q = Ok (R1 ++ R2)
      /\ List.length R1 <= List.length D1
      /\ incl R1 D1.
Proof.
  intros D1 D2 pathId rest q.
  destruct (FilterFacts.filteredDocuments_IsFilter pathId rest q)
    as [F [[keep Hkeep] H]].
  exists (F D1), (F D2). rewrite !H, !Hkeep, filter_app.
  repeat split; [apply filter_length_le|apply incl_filter].
Qed.

(** X2.  Every selected path the explorer can reach (from the initial
    [['all']], by clicks in the tree of any collection and by address-bar
    clicks with a non-negative index) begins with ['all']: on it the
    engine never throws and applies the search stage alone, and the
    breadcrumb is empty. *)
Theorem reachable_path_unrestricted {casing : Casing} :
  forall p : list string,
    Aux2.Reachable p ->
    (exists rest, p = "all"%string :: rest)
    /\ (forall D q, filteredDocuments D p q = Ok (searchFilter q D))
    /\ (forall tree, ExplorerLayout.breadcrumbPath tree p = []).
Proof.
  intros p Hp. destruct (NavFacts.Reachable_from_root p Hp) as [rest ->].
  split; [now exists rest|]. split; reflexivity.
Qed.

Lemma reachable_path_unrestricted_witness :
  (exists rest, ["all"; "proj-1"; "proj-1-Design"]%string
                = "all"%string :: rest)
  /\ (forall D q,
        filteredDocuments (casing := asciiCasing)
              D ["all"; "proj-1"; "proj-1-Design"] q
        = Ok (searchFilter (casing := asciiCasing) q D))
  /\ (forall tree,
        ExplorerLayout.breadcrumbPath
          tree ["all"; "proj-1"; "proj-1-Design"] = []).
Proof.
  apply (reachable_path_unrestricted (casing := asciiCasing)
        ["all"; "proj-1"; "proj-1-Design"]%string).
  eapply (Aux2.ReachTree [] [Scenario.d1 "Drawing" None; Scenario.d3]).
  - apply Aux2.ReachInit.
  - reflexivity.
  - simpl. right. right. left. reflexivity.
Defined.

(** X3.  An address-bar click with a positive index keeps the first
    element of the selected path, so the engine's result stays what it
    was; a negative index that reaches back to the start of the path, or
    beyond, selects the empty path, on which the engine throws. *)
Theorem handleBreadcrumbClick_filter {casing : Casing} :
  forall (D : list Document.t) (path : list string) (q : string)
         (index : Z),
    ((0 < index)%Z ->
     filteredDocuments D (ExplorerLayout.handleBreadcrumbClick path index) q
     = filteredDocuments D path q)
    /\ ((index < 0)%Z ->
        (index <= - Z.of_nat (List.length path))%Z ->
        filteredDocuments D (ExplorerLayout.handleBreadcrumbClick path index)
                          q
        = Throw "TypeError").
Proof.
  intros D path q index. unfold ExplorerLayout.handleBreadcrumbClick. split.
  - intros H. destruct (Z.eqb_spec index 0) as [?|_]; [lia|].
    destruct path as [|a path]; [now rewrite NavFacts.slice0_nil|].
    now destruct (NavFacts.slice0_cons a path index H) as [l' ->].
  - intros Hneg H. destruct (Z.eqb_spec index 0) as [?|_]; [lia|].
    now rewrite NavFacts.slice0_negative.
Qed.

Lemma handleBreadcrumbClick_filter_witness :
  filteredDocuments (casing := asciiCasing)
        [Scenario.d1 "Drawing" None; Scenario.d3]
    (ExplorerLayout.handleBreadcrumbClick ["proj-1"; "proj-1-Design"] 1) ""
  = filteredDocuments (casing := asciiCasing)
        [Scenario.d1 "Drawing" None; Scenario.d3]
      ["proj-1"; "proj-1-Design"] ""
  /\ filteredDocuments (casing := asciiCasing)
        [Scenario.d1 "Drawing" None; Scenario.d3]
       (ExplorerLayout.handleBreadcrumbClick ["proj-1"; "proj-1-Design"]
                                             (-2)) ""
     = Throw "TypeError".
Proof.
  split.
  - apply (handleBreadcrumbClick_filter (casing := asciiCasing)
             [Scenario.d1 "Drawing" None; Scenario.d3]
             ["proj-1"; "proj-1-Design"]%string ""%string 1%Z).
    reflexivity.
  - apply (handleBreadcrumbClick_filter (casing := asciiCasing)
             [Scenario.d1 "Drawing" None; Scenario.d3]
             ["proj-1"; "proj-1-Design"]%string ""%string (-2)%Z).
    + reflexivity.
    + simpl. lia.
Defined.

(** X4.  After a click on a node the selected path is the node's path,
    and the nodes shown as selected are exactly those with the clicked
    node's id. *)
Theorem isSelected_after_click :
  forall (parentPath : list string) (node other : FolderNode.t),
    hd_error (FolderTree.TreeNode parentPath node)
    = Some (parentPath ++ [FolderNode.id node])
    /\ (Selection.isSelected (parentPath ++ [FolderNode.id node]) other = true
        <-> FolderNode.id other = FolderNode.id node).
Proof.
  intros parentPath node other. split; [now destruct node|].
  unfold Selection.isSelected. rewrite rev_unit, String.eqb_eq.
  split; congruence.
Qed.

(** X5.  The context menu opens at the click, moved left and up just as
    far as needed for the menu and its padding to end inside the window:
    its abscissa is the smaller of the click's and of the window's width
    less 208, its ordinate the smaller of the click's and of the window's
    height less the menu's height and 8.  So it is inside the window on
    the right and at the bottom, never right of or below the click, and at
    the click itself in each direction in which it fits there; it is not
    kept from the left and top edges: in a window narrower, or lower, than
    the menu and its padding it opens at a negative coordinate. *)
Theorem handleContextMenu_fits :
  forall (window : ContextMenu.Viewport) (canDelete : option bool)
         (clientX clientY : Z),
    let menuHeight :=
      match canDelete with
      | Some true => 280%Z
      | _ => 220%Z
      end in
    let pos := ContextMenu.handleContextMenu window canDelete
                                             clientX clientY in
    pos = (Z.min clientX (ContextMenu.innerWidth window - 200 - 8),
           Z.min clientY (ContextMenu.innerHeight window - menuHeight - 8))
    /\ (fst pos + 200 + 8 <= ContextMenu.innerWidth window)%Z
    /\ (snd pos + menuHeight + 8 <= ContextMenu.innerHeight window)%Z
    /\ (fst pos <= clientX)%Z /\ (snd pos <= clientY)%Z
    /\ ((clientX + 208 <= ContextMenu.innerWidth window)%Z ->
        fst pos = clientX)
    /\ ((clientY + menuHeight + 8 <= ContextMenu.innerHeight window)%Z ->
        snd pos = clientY)
    /\ ((ContextMenu.innerWidth window < 208)%Z -> (fst pos < 0)%Z)
    /\ ((ContextMenu.innerHeight window < menuHeight + 8)%Z ->
        (snd pos < 0)%Z).
Proof.
  intros window canDelete clientX clientY.
  unfold ContextMenu.handleContextMenu. cbv zeta.
  destruct (Z.ltb_spec (ContextMenu.innerWidth window) (clientX + 200 + 8));
    destruct (Z.ltb_spec (ContextMenu.innerHeight window)
                (clientY + match canDelete with
                           | Some true => 280
                           | _ => 220
                           end + 8));
    simpl fst; simpl snd; destruct canDelete as [[]|];
    (split; [f_equal; lia|]); repeat split; lia.
Qed.

Lemma handleContextMenu_fits_witness :
  fst (ContextMenu.handleContextMenu (ContextMenu.mkViewport 1280 720)
                                     (Some true) 500 100) = 500%Z
  /\ snd (ContextMenu.handleContextMenu (ContextMenu.mkViewport 1280 720)
                                        (Some true) 500 100) = 100%Z
  /\ (fst (ContextMenu.handleContextMenu (ContextMenu.mkViewport 150 200)
                                         None 10 10) < 0)%Z
  /\ (snd (ContextMenu.handleContextMenu (ContextMenu.mkViewport 150 200)
                                         None 10 10) < 0)%Z.
Proof.
  split; [|split; [|split]].
  - apply (handleContextMenu_fits (ContextMenu.mkViewport 1280 720)
                                  (Some true) 500%Z 100%Z).
    simpl. lia.
  - apply (handleContextMenu_fits (ContextMenu.mkViewport 1280 720)
                                  (Some true) 500%Z 100%Z).
    simpl. lia.
  - apply (handleContextMenu_fits (ContextMenu.mkViewport 150 200)
                                  None 10%Z 10%Z).
    simpl. lia.
  - apply (handleContextMenu_fits (ContextMenu.mkViewport 150 200)
                                  None 10%Z 10%Z).
    simpl. lia.
Defined.

Lemma isSelected_after_click_witness :
  Selection.isSelected
    (["all"; "proj-1"] ++ [FolderNode.id (newPhaseNode (Scenario.d1 "" None))])
    (newPhaseNode (Scenario.d1 "Drawing" None)) = true.
Proof.
  apply (isSelected_after_click ["all"; "proj-1"]%string
           (newPhaseNode (Scenario.d1 "" None))
           (newPhaseNode (Scenario.d1 "Drawing" None))).
  reflexivity.
Defined.

(** ** Breadcrumb labels *)

Module LabelFacts.
Import Js Aux2 ExplorerLayout.

Lemma findNodeNameAt_eq (targetId : string) (node : FolderNode.t) :
  findNodeNameAt targetId node
  = if String.eqb (FolderNode.id node) targetId
    then Some (FolderNode.name node)
    else match FolderNode.children node with
         | Some cs =>
             match findNodeName cs targetId with
             | Some r => if truthy r then Some r else None
             | None => None
             end
         | None => None
         end.
Proof.
  destruct node as [i nm ty [cs|] dc pi ph di]; simpl; [|reflexivity].
  destruct (String.eqb i targetId); [reflexivity|].
  replace ((fix loop (nodes : list FolderNode.t) : option string :=
              match nodes with
              | [] => None
              | n :: nodes' =>
                  match findNodeNameAt targetId n with
                  | Some r => Some r
                  | None => loop nodes'
                  end
              end) cs) with (findNodeName cs targetId); [reflexivity|].
  induction cs as [|c cs IH]; simpl; [reflexivity|]. now rewrite IH.
Qed.

Lemma find_app {A} (p : A -> bool) (l1 l2 : list A) :
  find p (l1 ++ l2)
  = match find p l1 with
    | Some x => Some x
    | None => find p l2
    end.
Proof.
  induction l1 as [|x l1 IH]; simpl; [reflexivity|]. now destruct (p x).
Qed.

Lemma nodesOf_eq (n : FolderNode.t) :
  nodesOf n = n :: flat_map nodesOf (FolderNode.childrenOrEmpty n).
Proof. now destruct n as [i nm ty [cs|] dc pi ph di]. Qed.

(** What a round returns is the name of a node with the wanted id. *)
Lemma findNodeNameAt_sound (targetId : string) (node : FolderNode.t) :
  forall nm,
    findNodeNameAt targetId node = Some nm ->
    exists n, In n (nodesOf node)
              /\ FolderNode.id n = targetId /\ FolderNode.name n = nm.
Proof.
  induction node as [node IH] using TreeFacts.node_ind. intros nm.
  rewrite findNodeNameAt_eq, nodesOf_eq.
  destruct (String.eqb_spec (FolderNode.id node) targetId) as [E|_].
  - intros [= <-]. exists node. split; [now left|now split].
  - unfold FolderNode.childrenOrEmpty in *.
    destruct (FolderNode.children node) as [cs|]; [|discriminate].
    assert (H : forall r, findNodeName cs targetId = Some r ->
                  exists n, In n (flat_map nodesOf cs)
                            /\ FolderNode.id n = targetId
                            /\ FolderNode.name n = r).
    { clear nm. induction cs as [|c cs IHcs]; simpl; [discriminate|].
      inversion IH as [|? ? Hc Hcs]; subst. intros r.
      destruct (findNodeNameAt targetId c) as [r'|] eqn:E.
      - intros [= <-]. destruct (Hc r' eq_refl) as [n [Hin Hn]].
        exists n. split; [apply in_or_app; now left|exact Hn].
      - intros Hr. destruct (IHcs Hcs r Hr) as [n [Hin Hn]].
        exists n. split; [apply in_or_app; now right|exact Hn]. }
    destruct (findNodeName cs targetId) as [r|]; [|discriminate].
    destruct (truthy r); [|discriminate]. intros [= <-].
    destruct (H r eq_refl) as [n [Hin Hn]]. exists n.
    split; [now right|exact Hn].
Qed.

Lemma findNodeName_sound_list (targetId : string) (nodes : list FolderNode.t) :
  forall nm,
    findNodeName nodes targetId = Some nm ->
    exists n, In n (allNodes nodes)
              /\ FolderNode.id n = targetId /\ FolderNode.name n = nm.
Proof.
  unfold allNodes. induction nodes as [|c cs IH]; simpl; [discriminate|].
  intros nm. destruct (findNodeNameAt targetId c) as [r|] eqn:E.
  - intros [= <-]. destruct (findNodeNameAt_sound _ _ _ E) as [n [Hin Hn]].
    exists n. split; [apply in_or_app; now left|exact Hn].
  - intros H. destruct (IH nm H) as [n [Hin Hn]].
    exists n. split; [apply in_or_app; now right|exact Hn].
Qed.

(** With no empty name below it, a round returns the name of the first
    node with the wanted id, parents before children. *)
Lemma findNodeNameAt_first (targetId : string) (node : FolderNode.t) :
  Forall (fun n => FolderNode.name n <> ""%string) (nodesOf node) ->
  findNodeNameAt targetId node
  = option_map FolderNode.name
      (find (fun n => String.eqb (FolderNode.id n) targetId) (nodesOf node)).
Proof.
  induction node as [node IH] using TreeFacts.node_ind.
  rewrite findNodeNameAt_eq, nodesOf_eq. intros Hnames. simpl.
  destruct (String.eqb (FolderNode.id node) targetId); [reflexivity|].
  inversion Hnames as [|? ? _ Hcs]; subst. clear Hnames.
  unfold FolderNode.childrenOrEmpty in *.
  destruct (FolderNode.children node) as [cs|]; [|reflexivity].
  assert (H : findNodeName cs targetId
              = option_map FolderNode.name
                  (find (fun n => String.eqb (FolderNode.id n) targetId)
                        (flat_map nodesOf cs))).
  { induction cs as [|c cs IHcs]; simpl; [reflexivity|].
    inversion IH as [|? ? Hc Hrest]; subst.
    apply Forall_app in Hcs as [Hc1 Hc2].
    rewrite find_app, (Hc Hc1), (IHcs Hrest Hc2).
    now destruct (find _ (nodesOf c)). }
  rewrite H.
  destruct (find _ (flat_map nodesOf cs)) as [n|] eqn:E; [|reflexivity].
  simpl. apply find_some in E as [Hin _].
  rewrite Forall_forall in Hcs. specialize (Hcs n Hin).
  now destruct (FolderNode.name n).
Qed.

Lemma findNodeName_first_list (targetId : string)
    (nodes : list FolderNode.t) :
  Forall (fun n => FolderNode.name n <> ""%string) (allNodes nodes) ->
  findNodeName nodes targetId
  = option_map FolderNode.name
      (find (fun n => String.eqb (FolderNode.id n) targetId)
            (allNodes nodes)).
Proof.
  unfold allNodes. induction nodes as [|c cs IH]; simpl; [reflexivity|].
  intros H. apply Forall_app in H as [Hc Hcs].
  rewrite find_app, (findNodeNameAt_first _ _ Hc), (IH Hcs).
  now destruct (find _ (nodesOf c)).
Qed.
End LabelFacts.

(** X6.  A name [findNodeName] returns is the name of a node of the tree
    with the wanted id; when no node of the tree has the id, the
    breadcrumb shows the raw id. *)
Theorem findNodeName_sound :
  forall (tree : list FolderNode.t) (targetId : string),
    (forall nm,
        ExplorerLayout.findNodeName tree targetId = Some nm ->
        exists n, In n (Aux2.allNodes tree)
                  /\ FolderNode.id n = targetId /\ FolderNode.name n = nm)
    /\ ((forall n, In n (Aux2.allNodes tree) -> FolderNode.id n <> targetId) ->
        ExplorerLayout.labelFor tree targetId = targetId).
Proof.
  intros tree targetId. split; [apply LabelFacts.findNodeName_sound_list|].
  intros Hnone. unfold ExplorerLayout.labelFor.
  destruct (ExplorerLayout.findNodeName tree targetId) as [nm|] eqn:E;
    [|reflexivity].
  apply LabelFacts.findNodeName_sound_list in E as [n [Hin [Hid _]]].
  now apply Hnone in Hin.
Qed.

(** X7.  In a tree with no empty name, [findNodeName] returns the name of
    the first node with the wanted id, in the order parents first, and
    [null] when there is none. *)
Theorem findNodeName_first_match :
  forall (tree : list FolderNode.t) (targetId : string),
    (forall n, In n (Aux2.allNodes tree) -> FolderNode.name n <> ""%string) ->
    ExplorerLayout.findNodeName tree targetId
    = option_map FolderNode.name
        (find (fun n => String.eqb (FolderNode.id n) targetId)
              (Aux2.allNodes tree)).
Proof.
  intros tree targetId H. apply LabelFacts.findNodeName_first_list.
  now apply Forall_forall.
Qed.

Lemma findNodeName_sound_witness :
  ExplorerLayout.labelFor [newPhaseNode (Scenario.d1 "Drawing" None)]
                          "proj-9" = "proj-9"%string.
Proof.
  apply (findNodeName_sound [newPhaseNode (Scenario.d1 "Drawing" None)]
                            "proj-9"%string).
  simpl. intros n [<-|[]]. simpl. discriminate.
Defined.

Lemma findNodeName_first_match_witness :
  ExplorerLayout.findNodeName [newPhaseNode (Scenario.d1 "Drawing" None)]
                              "proj-1-Design"
  = option_map FolderNode.name
      (find (fun n => String.eqb (FolderNode.id n) "proj-1-Design")
            (Aux2.allNodes [newPhaseNode (Scenario.d1 "Drawing" None)])).
Proof.
  apply (findNodeName_first_match
           [newPhaseNode (Scenario.d1 "Drawing" None)]
           "proj-1-Design"%string).
  simpl. intros n [<-|[]]. simpl. discriminate.
Defined.

(** ** Refining a search *)

Module SearchFacts.
Import Js FileExplorer JsFacts.

Section WithCasing.
Context {casing : Casing}.

Lemma Substring_trans (a b c : string) :
  Substring a b -> Substring b c -> Substring a c.
Proof.
  intros [p1 [s1 ->]] [p2 [s2 ->]]. exists (p2 ++ p1)%string, (s1 ++ s2)%string.
  now rewrite !append_assoc.
Qed.

(** On ASCII text lower-casing goes letter by letter, so the lower-cased
    part is inside the lower-cased whole. *)
Lemma Substring_lower (pre q post : string) :
  isAscii pre = true -> isAscii q = true -> isAscii post = true ->
  Substring (toLowerCase q) (toLowerCase (pre ++ q ++ post)).
Proof.
  intros Hpre Hq Hpost.
  rewrite (toLowerCase_ascii q Hq), toLowerCase_ascii
    by now rewrite !isAscii_app, Hpre, Hq, Hpost.
  exists (asciiLower pre), (asciiLower post). now rewrite !asciiLower_app.
Qed.

(** A document that matches a query matches every part of it. *)
Lemma matchesQuery_part (q q' : string) (d : Document.t) :
  Substring q q' -> matchesQuery q' d = true -> matchesQuery q d = true.
Proof.
  intros Hq. rewrite !FilterFacts.matchesQuery_spec.
  intros [H|[[t [Hin H]]|[H|[s [E H]]]]].
  - left. now apply (Substring_trans q q').
  - right; left. exists t. split; [exact Hin|now apply (Substring_trans q q')].
  - right; right; left. now apply (Substring_trans q q').
  - right; right; right. exists s.
    split; [exact E|now apply (Substring_trans q q')].
Qed.

Lemma truthy_part (pre q post : string) :
  truthy q = true -> truthy (pre ++ q ++ post) = true.
Proof. destruct pre; [destruct q|]; simpl; congruence. Qed.

(** Searching for a longer query among the results for a part of it
    gives what the longer query gives from scratch. *)
Lemma searchFilter_refine (kp : Document.t -> bool) (pre q post : string)
    (D : list Document.t) :
  Substring (toLowerCase q) (toLowerCase (pre ++ q ++ post)) ->
  searchFilter (pre ++ q ++ post)
    (filter kp (searchFilter q (filter kp D)))
  = searchFilter (pre ++ q ++ post) (filter kp D).
Proof.
  intros Hsub. unfold searchFilter. destruct (truthy q) eqn:Eq.
  - rewrite (truthy_part pre q post Eq).
    rewrite !ListFacts.filter_twice. apply filter_ext. intros d.
    destruct (kp d); simpl; [|reflexivity].
    destruct (matchesQuery (toLowerCase (pre ++ q ++ post)) d) eqn:E;
      [|now rewrite andb_false_r].
    now rewrite (matchesQuery_part (toLowerCase q) _ d Hsub E).
  - now rewrite ListFacts.filter_idem.
Qed.

Lemma searchFilter_incl (q : string) (L : list Document.t) :
  incl (searchFilter q L) L.
Proof.
  unfold searchFilter. destruct (truthy q);
    [apply incl_filter|apply incl_refl].
Qed.

Lemma searchFilter_part_incl (pre q post : string) (L : list Document.t) :
  Substring (toLowerCase q) (toLowerCase (pre ++ q ++ post)) ->
  incl (searchFilter (pre ++ q ++ post) L) (searchFilter q L).
Proof.
  intros Hsub. unfold searchFilter. destruct (truthy q) eqn:Eq;
    [|apply searchFilter_incl].
  rewrite (truthy_part pre q post Eq). intros d Hd.
  apply filter_In in Hd as [Hin Hd]. apply filter_In. split; [exact Hin|].
  exact (matchesQuery_part _ _ d Hsub Hd).
Qed.
End WithCasing.
End SearchFacts.

(** X8.  For queries of ASCII text, typing more around a query only
    narrows the result: what a query that contains [q] keeps is among
    what [q] keeps, and searching for it within the result for [q] gives
    the same as searching the whole collection.  (Outside ASCII the case
    conversion need not go letter by letter, and nothing is claimed.) *)
Theorem search_refines {casing : Casing} :
  forall (D : list Document.t) (pathId : string) (rest : list string)
         (pre q post : string),
    isAscii pre = true -> isAscii q = true -> isAscii post = true ->
    exists R R',
      filteredDocuments D (pathId :: rest) q = Ok R
      /\ filteredDocuments D (pathId :: rest) (pre ++ q ++ post) = Ok R'
      /\ filteredDocuments R (pathId :: rest) (pre ++ q ++ post) = Ok R'
      /\ incl R' R.
Proof.
  intros D pathId rest pre q post Hpre Hq Hpost.
  pose proof (SearchFacts.Substring_lower pre q post Hpre Hq Hpost) as Hsub.
  unfold filteredDocuments.
  assert (HP : Aux.IsFilter
                 (fun L => if negb (String.eqb pathId "all")
                           then pathFilter pathId L else L)).
  { destruct (negb _);
      [apply FilterFacts.pathFilter_IsFilter|apply ListFacts.IsFilter_id]. }
  destruct HP as [kp Hkp]. cbv beta in Hkp.
  exists (searchFilter q (filter kp D)),
         (searchFilter (pre ++ q ++ post) (filter kp D)).
  rewrite !Hkp. split; [reflexivity|]. split; [reflexivity|].
  split; [now rewrite SearchFacts.searchFilter_refine|].
  now apply SearchFacts.searchFilter_part_incl.
Qed.

Lemma search_refines_witness :
  exists R R',
    filteredDocuments (casing := asciiCasing)
      [Scenario.d1 "Drawing" None; Scenario.d3] ["all"] "Plan" = Ok R
    /\ filteredDocuments (casing := asciiCasing)
         [Scenario.d1 "Drawing" None; Scenario.d3] ["all"]
         ("Bridge " ++ "Plan" ++ "") = Ok R'
    /\ filteredDocuments (casing := asciiCasing) R ["all"]
         ("Bridge " ++ "Plan" ++ "") = Ok R'
    /\ incl R' R.
Proof.
  apply (search_refines (casing := asciiCasing)
           [Scenario.d1 "Drawing" None; Scenario.d3] "all"%string []
           "Bridge "%string "Plan"%string ""%string);
    reflexivity.
Defined.

(** ** The shape of the tree *)

Module ShapeFacts.
Import Js FileExplorer Aux Aux2 FindFacts.

Lemma findOrCreate_nonempty {A} (p : A -> bool) fresh touch (cs : list A) :
  findOrCreate p fresh touch cs <> [].
Proof.
  destruct cs as [|c cs]; [discriminate|]. rewrite findOrCreate_cons.
  destruct (p c); discriminate.
Qed.

(** Find or create adds one to the sum of what [touch] raises by one. *)
Lemma findOrCreate_sum {A} (g : A -> nat) p fresh touch (cs : list A) :
  g fresh = 0 ->
  (forall c, g (touch c) = g c + 1) ->
  list_sum (map g (findOrCreate p fresh touch cs)) = list_sum (map g cs) + 1.
Proof.
  intros Hfresh Ht. induction cs as [|c cs IH].
  - unfold findOrCreate. simpl. rewrite Ht, Hfresh. reflexivity.
  - rewrite findOrCreate_cons. destruct (p c); simpl;
      [rewrite Ht|rewrite IH]; lia.
Qed.

Lemma projectName_nonempty projects k : projectName projects k <> ""%string.
Proof.
  unfold projectName, orElse.
  destruct (option_map _ _) as [[|c s]|]; discriminate.
Qed.

Lemma touchDiscipline_shape g :
  isDisciplineNode g -> isDisciplineNode (touchDiscipline g).
Proof. intros H. exact H. Qed.

Lemma newDisciplineNode_shape doc :
  isDisciplineNode (touchDiscipline (newDisciplineNode doc)).
Proof.
  unfold isDisciplineNode. simpl. repeat split.
  now exists (Document.discipline doc).
Qed.

Lemma touchPhase_shape sd doc c :
  FolderNode.type c = TPhase ->
  (exists ph, FolderNode.name c = phaseStr ph
              /\ FolderNode.phase c = Some ph) ->
  Forall isDisciplineNode (FolderNode.childrenOrEmpty c) ->
  isPhaseNode (touchPhaseWith sd doc c).
Proof.
  intros Hty Hph Hcs. unfold isPhaseNode.
  split; [exact Hty|]. split; [exact Hph|].
  eexists. split; [reflexivity|]. split; [apply findOrCreate_nonempty|].
  apply findOrCreate_Forall; [exact Hcs|apply newDisciplineNode_shape|].
  intros g _ Hg _. now apply touchDiscipline_shape.
Qed.

Lemma isPhaseNode_children c :
  isPhaseNode c -> Forall isDisciplineNode (FolderNode.childrenOrEmpty c).
Proof.
  intros [_ [_ [cs [E [_ H]]]]]. unfold FolderNode.childrenOrEmpty.
  now rewrite E.
Qed.

Lemma touchProject_shape sp sd doc n :
  FolderNode.type n = TProject ->
  FolderNode.projectId n = Some (FolderNode.id n) ->
  FolderNode.name n <> ""%string ->
  Forall isPhaseNode (FolderNode.childrenOrEmpty n) ->
  isProjectNode (touchProjectWith sp sd doc n).
Proof.
  intros Hty Hpid Hname Hcs. unfold isProjectNode.
  split; [exact Hty|]. split; [exact Hpid|]. split; [exact Hname|].
  eexists. split; [reflexivity|]. split; [apply findOrCreate_nonempty|].
  apply findOrCreate_Forall; [exact Hcs| |].
  - apply touchPhase_shape; [reflexivity| |constructor].
    now exists (Document.phase doc).
  - intros c _ Hc _. pose proof (isPhaseNode_children c Hc) as Hg.
    destruct Hc as [Hc1 [Hc2 _]]. now apply touchPhase_shape.
Qed.

Lemma isProjectNode_children n :
  isProjectNode n -> Forall isPhaseNode (FolderNode.childrenOrEmpty n).
Proof.
  intros [_ [_ [_ [cs [E [_ H]]]]]]. unfold FolderNode.childrenOrEmpty.
  now rewrite E.
Qed.

Lemma fold_step_shape projects sp sd docs m :
  Forall (fun kv => isProjectNode (snd kv)) m ->
  Forall (fun kv => isProjectNode (snd kv))
         (fold_left (step projects sp sd) docs m).
Proof.
  revert m. induction docs as [|doc docs IH]; intros m Hm; simpl;
    [exact Hm|].
  apply IH. unfold step.
  apply (MapFacts.upsert_Forall (fun _ n => isProjectNode n)); [exact Hm| |].
  - apply touchProject_shape; try reflexivity; [|constructor].
    apply projectName_nonempty.
  - intros v _ Hv. pose proof (isProjectNode_children v Hv) as Hcs.
    destruct Hv as [H1 [H2 [H3 _]]]. now apply touchProject_shape.
Qed.

(** *** Counts *)

Lemma touchPhase_counts sd doc c :
  totalCount (FolderNode.childrenOrEmpty c) = FolderNode.countOrZero c ->
  Forall (fun g => 1 <= FolderNode.countOrZero g)
         (FolderNode.childrenOrEmpty c) ->
  phaseCounts (touchPhaseWith sd doc c).
Proof.
  intros Hsum Hcs. unfold phaseCounts, countsAddUp.
  rewrite NodeFacts.touchPhaseWith_children.
  change (FolderNode.countOrZero (touchPhaseWith sd doc c))
    with (FolderNode.countOrZero c + 1).
  split; [split; [lia|]|].
  - unfold totalCount in *. rewrite findOrCreate_sum; [lia|reflexivity|].
    intros g. reflexivity.
  - assert (Hb : forall g, 1 <= FolderNode.countOrZero (touchDiscipline g)).
    { intros g. change (1 <= FolderNode.countOrZero g + 1). lia. }
    apply findOrCreate_Forall; [exact Hcs|apply Hb|]. intros g _ _ _.
    apply Hb.
Qed.

Lemma touchProject_counts sp sd doc n :
  totalCount (FolderNode.childrenOrEmpty n) = FolderNode.countOrZero n ->
  Forall phaseCounts (FolderNode.childrenOrEmpty n) ->
  projectCounts (touchProjectWith sp sd doc n).
Proof.
  intros Hsum Hcs. unfold projectCounts, countsAddUp.
  rewrite NodeFacts.touchProjectWith_children,
    NodeFacts.touchProjectWith_count.
  split; [split; [lia|]|].
  - unfold totalCount in *. rewrite findOrCreate_sum; [lia|reflexivity|].
    intros c. reflexivity.
  - apply findOrCreate_Forall; [exact Hcs| |].
    + apply touchPhase_counts; [reflexivity|constructor].
    + intros c _ [[_ Hc1] Hc2] _. now apply touchPhase_counts.
Qed.

Lemma fold_step_counts projects sp sd docs m :
  Forall (fun kv => projectCounts (snd kv)) m ->
  Forall (fun kv => projectCounts (snd kv))
         (fold_left (step projects sp sd) docs m).
Proof.
  revert m. induction docs as [|doc docs IH]; intros m Hm; simpl;
    [exact Hm|].
  apply IH. unfold step.
  apply (MapFacts.upsert_Forall (fun _ n => projectCounts n)); [exact Hm| |].
  - apply touchProject_counts; [reflexivity|constructor].
  - intros v _ [[_ Hv1] Hv2]. now apply touchProject_counts.
Qed.

(** *** Order *)

Lemma upsert_has_eq {V} (m : JsMap.t V) k fresh f y :
  JsMap.has (upsert m k fresh f) y = JsMap.has m y || String.eqb y k.
Proof.
  induction m as [|[k' v] m IH]; simpl.
  - rewrite String.eqb_sym. now destruct (String.eqb y k).
  - destruct (String.eqb_spec k' k) as [->|Hne]; simpl.
    + destruct (String.eqb_spec k y) as [E|Hy]; [reflexivity|].
      destruct (String.eqb_spec y k) as [E|_]; [congruence|].
      now rewrite orb_false_r.
    + destruct (String.eqb k' y); [reflexivity|exact IH].
Qed.

Lemma fold_step_keys projects sp sd docs m :
  JsMap.keys (fold_left (step projects sp sd) docs m)
  = JsMap.keys m
    ++ filter (fun k => negb (JsMap.has m k))
              (firstSeen (map Document.projectId docs)).
Proof.
  revert m. induction docs as [|doc docs IH]; intros m; simpl;
    [now rewrite app_nil_r|].
  rewrite IH. unfold step at 1 2. rewrite MapFacts.upsert_keys.
  set (k := Document.projectId doc).
  set (L := firstSeen (map Document.projectId docs)).
  rewrite ListFacts.filter_twice.
  destruct (JsMap.has m k) eqn:E; simpl.
  - f_equal. apply filter_ext. intros y. rewrite upsert_has_eq.
    destruct (String.eqb_spec y k) as [->|_]; simpl;
      [now rewrite E|now rewrite orb_false_r].
  - rewrite <- app_assoc. simpl. do 2 f_equal.
    apply filter_ext. intros y. rewrite upsert_has_eq.
    destruct (String.eqb y k); simpl;
      [now rewrite orb_true_r|now rewrite orb_false_r].
Qed.

Lemma ids_values projects m :
  wfMap projects m -> map FolderNode.id (JsMap.values m) = JsMap.keys m.
Proof.
  intros [_ Hm]. unfold JsMap.values, JsMap.keys. rewrite map_map.
  apply map_ext_in. rewrite Forall_forall in Hm.
  intros kv Hkv. now destruct (Hm kv Hkv).
Qed.
End ShapeFacts.

(** X9.  The tree is a strict hierarchy: under the root are project
    nodes, each tagged with its id, named, and over at least one phase
    node; each phase node is tagged with its phase and over at least one
    discipline node; each discipline node is tagged with its discipline
    and has an empty [children] array. *)
Theorem folderTree_strict_hierarchy :
  forall (projects : list Project.t) (D : list Document.t),
    exists root,
      folderTree projects D = Ok [root]
      /\ Forall Aux2.isProjectNode (FolderNode.childrenOrEmpty root).
Proof.
  intros projects D. unfold folderTree, addDocument.
  rewrite NodeFacts.folderTreeWith_fold. eexists. split; [reflexivity|].
  unfold FolderNode.childrenOrEmpty, rootNode, JsMap.values.
  cbn [FolderNode.children]. apply Forall_map.
  apply ShapeFacts.fold_step_shape. constructor.
Qed.

(** X10.  At every level of the tree the counts add up: each project
    node and each phase node counts at least one document and exactly as
    many as its children together, and each discipline node counts at
    least one. *)
Theorem folderTree_counts_add_up :
  forall (projects : list Project.t) (D : list Document.t),
    exists root,
      folderTree projects D = Ok [root]
      /\ Forall Aux2.projectCounts (FolderNode.childrenOrEmpty root).
Proof.
  intros projects D. unfold folderTree, addDocument.
  rewrite NodeFacts.folderTreeWith_fold. eexists. split; [reflexivity|].
  unfold FolderNode.childrenOrEmpty at 1, rootNode, JsMap.values.
  cbn [FolderNode.children]. apply Forall_map.
  apply ShapeFacts.fold_step_counts. constructor.
Qed.

(** X11.  The project nodes stand under the root in the order in which
    their project ids are first seen in the collection, one node per
    project id. *)
Theorem folderTree_first_seen_order :
  forall (projects : list Project.t) (D : list Document.t),
    exists root,
      folderTree projects D = Ok [root]
      /\ map FolderNode.id (FolderNode.childrenOrEmpty root)
         = Aux2.firstSeen (map Document.projectId D).
Proof.
  intros projects D. unfold folderTree, addDocument.
  rewrite NodeFacts.folderTreeWith_fold. eexists. split; [reflexivity|].
  unfold FolderNode.childrenOrEmpty, rootNode. cbn [FolderNode.children].
  rewrite (ShapeFacts.ids_values projects)
    by apply NodeFacts.fold_step_wf, NodeFacts.wfMap_empty.
  rewrite ShapeFacts.fold_step_keys. simpl. apply ListFacts.filter_all.
Qed.

(** ** Labels in the built tree *)

Module BuiltLabelFacts.
Import Js FileExplorer Aux Aux2.

Lemma disciplineStr_nonempty di : disciplineStr di <> ""%string.
Proof. destruct di; discriminate. Qed.

Lemma phaseStr_nonempty ph : phaseStr ph <> ""%string.
Proof. destruct ph; discriminate. Qed.

Lemma isDisciplineNode_names g :
  isDisciplineNode g ->
  Forall (fun n => FolderNode.name n <> ""%string) (nodesOf g).
Proof.
  intros [_ [E [di [Hn _]]]]. rewrite LabelFacts.nodesOf_eq.
  unfold FolderNode.childrenOrEmpty. rewrite E. simpl.
  constructor; [|constructor]. rewrite Hn. apply disciplineStr_nonempty.
Qed.

Lemma isPhaseNode_names c :
  isPhaseNode c ->
  Forall (fun n => FolderNode.name n <> ""%string) (nodesOf c).
Proof.
  intros Hc. pose proof (ShapeFacts.isPhaseNode_children c Hc) as Hcs.
  destruct Hc as [_ [[ph [Hn _]] _]]. rewrite LabelFacts.nodesOf_eq.
  constructor; [rewrite Hn; apply phaseStr_nonempty|].
  apply Forall_flat_map. eapply Forall_impl; [|exact Hcs].
  apply isDisciplineNode_names.
Qed.

Lemma isProjectNode_names n :
  isProjectNode n ->
  Forall (fun n => FolderNode.name n <> ""%string) (nodesOf n).
Proof.
  intros Hn. pose proof (ShapeFacts.isProjectNode_children n Hn) as Hcs.
  destruct Hn as [_ [_ [Hname _]]]. rewrite LabelFacts.nodesOf_eq.
  constructor; [exact Hname|].
  apply Forall_flat_map. eapply Forall_impl; [|exact Hcs].
  apply isPhaseNode_names.
Qed.

(** No node of a built tree has an empty name. *)
Lemma built_names projects D :
  Forall (fun n => FolderNode.name n <> ""%string)
         (allNodes
            [rootNode D (fold_left (step projects phaseByName
                                         disciplineByName) D [])]).
Proof.
  unfold allNodes. cbn [flat_map]. rewrite app_nil_r.
  rewrite LabelFacts.nodesOf_eq. constructor; [discriminate|].
  apply Forall_flat_map.
  unfold FolderNode.childrenOrEmpty, rootNode, JsMap.values.
  cbn [FolderNode.children]. apply Forall_map.
  eapply Forall_impl;
    [|apply (ShapeFacts.fold_step_shape projects phaseByName
               disciplineByName D []); constructor].
  intros kv. apply isProjectNode_names.
Qed.

(** Every document's project has a node in the built tree. *)
Lemma built_project_node projects D doc :
  In doc D ->
  exists n,
    In n (allNodes
            [rootNode D (fold_left (step projects phaseByName
                                         disciplineByName) D [])])
    /\ FolderNode.id n = Document.projectId doc.
Proof.
  intros Hin.
  pose proof (TreeFacts.fold_step_has projects phaseByName disciplineByName
                D [] doc Hin) as Hhas.
  apply MapFacts.has_In in Hhas as [node Hnode].
  destruct (NodeFacts.fold_step_wf projects D []
              (NodeFacts.wfMap_empty projects)) as [_ Hm].
  rewrite Forall_forall in Hm. destruct (Hm _ Hnode) as [Hid _].
  exists node. split; [|exact Hid].
  unfold allNodes. cbn [flat_map]. rewrite app_nil_r.
  rewrite LabelFacts.nodesOf_eq. right.
  apply in_flat_map. exists node. split.
  - apply in_map_iff. now exists (Document.projectId doc, node).
  - rewrite LabelFacts.nodesOf_eq. now left.
Qed.
End BuiltLabelFacts.

(** X12.  In a built tree the breadcrumb label of an id is the name of
    the first node with that id, parents first, and the raw id when there
    is none; the project id of every document of the collection is
    labelled with the name of a node that has that id. *)
Theorem folderTree_labels :
  forall (projects : list Project.t) (D : list Document.t),
    exists tree,
      folderTree projects D = Ok tree
      /\ (forall targetId,
            ExplorerLayout.labelFor tree targetId
            = match find (fun n => String.eqb (FolderNode.id n) targetId)
                         (Aux2.allNodes tree) with
              | Some n => FolderNode.name n
              | None => targetId
              end)
      /\ (forall doc,
            In doc D ->
            exists n,
              In n (Aux2.allNodes tree)
              /\ FolderNode.id n = Document.projectId doc
              /\ ExplorerLayout.labelFor tree (Document.projectId doc)
                 = FolderNode.name n).
Proof.
  intros projects D. unfold folderTree, addDocument.
  rewrite NodeFacts.folderTreeWith_fold. eexists. split; [reflexivity|].
  pose proof (BuiltLabelFacts.built_names projects D) as Hnames.
  assert (Hlabel : forall targetId,
            ExplorerLayout.labelFor
              [rootNode D (fold_left (step projects phaseByName
                                           disciplineByName) D [])]
              targetId
            = match find (fun n => String.eqb (FolderNode.id n) targetId)
                         (Aux2.allNodes
                            [rootNode D
                               (fold_left (step projects phaseByName
                                                disciplineByName) D [])])
              with
              | Some n => FolderNode.name n
              | None => targetId
              end).
  { intros targetId. unfold ExplorerLayout.labelFor.
    rewrite (LabelFacts.findNodeName_first_list _ _ Hnames).
    destruct (find _ _) as [n|] eqn:E; [|reflexivity]. simpl.
    apply find_some in E as [Hin _]. rewrite Forall_forall in Hnames.
    specialize (Hnames n Hin). now destruct (FolderNode.name n). }
  split; [exact Hlabel|].
  intros doc Hin. rewrite Hlabel.
  destruct (BuiltLabelFacts.built_project_node projects D doc Hin)
    as [n0 [Hn0 Hid0]].
  destruct (find _ _) as [n|] eqn:E.
  - apply find_some in E as [Hn E]. apply String.eqb_eq in E. now exists n.
  - apply (find_none _ _ E) in Hn0. rewrite Hid0, String.eqb_refl in Hn0.
    discriminate.
Qed.

Lemma folderTree_labels_witness :
  exists tree,
    folderTree [] [Scenario.d1 "Drawing" None; Scenario.d3] = Ok tree
    /\ exists n,
         In n (Aux2.allNodes tree)
         /\ FolderNode.id n = "proj-2"%string
         /\ ExplorerLayout.labelFor tree "proj-2" = FolderNode.name n.
Proof.
  destruct (folderTree_labels [] [Scenario.d1 "Drawing" None; Scenario.d3])
    as [tree [Ht [_ H]]].
  exists tree. split; [exact Ht|].
  apply (H Scenario.d3). simpl. right. left. reflexivity.
Defined.

(** ** Counts and documents *)

Module DocFacts.
Import Js FileExplorer Aux Aux2 FindFacts.

Lemma filter_snoc_length {A} (f : A -> bool) (l : list A) (x : A) :
  List.length (filter f (l ++ [x]))
  = List.length (filter f l) + (if f x then 1 else 0).
Proof.
  rewrite filter_app, length_app. simpl. now destruct (f x).
Qed.

Lemma filter_none_impl {A} (f g : A -> bool) (l : list A) :
  (forall x, g x = true -> f x = true) ->
  List.length (filter f l) = 0 -> List.length (filter g l) = 0.
Proof.
  intros Hfg. induction l as [|x l IH]; simpl; [reflexivity|].
  destruct (g x) eqn:E.
  - rewrite (Hfg x E). discriminate.
  - destruct (f x); [discriminate|exact IH].
Qed.

Lemma countByName_none x cs :
  existsb (fun c => String.eqb (FolderNode.name c) x) cs = false ->
  countByName x cs = 0.
Proof.
  unfold countByName. induction cs as [|c cs IH]; simpl; [reflexivity|].
  destruct (String.eqb (FolderNode.name c) x); [discriminate|exact IH].
Qed.

Lemma countByName_self cs c :
  distinctNames cs -> In c cs ->
  countByName (FolderNode.name c) cs = FolderNode.countOrZero c.
Proof.
  unfold distinctNames, countByName.
  induction cs as [|c' cs IH]; simpl; intros Hnd Hin; [destruct Hin|].
  inversion Hnd as [|? ? Hc' Hnd']; subst.
  destruct (String.eqb_spec (FolderNode.name c') (FolderNode.name c))
    as [E|E].
  - destruct Hin as [->|Hin]; [reflexivity|]. exfalso. apply Hc'.
    rewrite E. now apply in_map.
  - destruct Hin as [->|Hin]; [now destruct E|now apply IH].
Qed.

(** Find or create by name raises the count under that name by one and
    leaves the others. *)
Lemma countByName_findOrCreate x y fresh touch cs :
  (forall c, FolderNode.name (touch c) = FolderNode.name c) ->
  (forall c, FolderNode.countOrZero (touch c)
             = FolderNode.countOrZero c + 1) ->
  FolderNode.name fresh = x ->
  FolderNode.countOrZero fresh = 0 ->
  countByName y
    (findOrCreate (fun c => String.eqb (FolderNode.name c) x) fresh touch cs)
  = countByName y cs + (if String.eqb x y then 1 else 0).
Proof.
  intros Hname Hcount Hfresh H0. induction cs as [|c cs IH].
  - unfold findOrCreate, countByName. simpl.
    rewrite Hname, Hfresh. destruct (String.eqb x y); [|reflexivity].
    now rewrite Hcount, H0.
  - rewrite findOrCreate_cons.
    destruct (String.eqb_spec (FolderNode.name c) x) as [E|E].
    + unfold countByName. simpl. rewrite Hname, E.
      destruct (String.eqb x y); [rewrite Hcount|]; lia.
    + unfold countByName in *. simpl.
      destruct (String.eqb_spec (FolderNode.name c) y) as [Ey|_];
        [|exact IH].
      destruct (String.eqb_spec x y) as [Exy|_]; [congruence|lia].
Qed.

(** With distinct names, find or create by name touches the one node of
    that name and no other. *)
Lemma findOrCreate_Forall_named (Q Q' : FolderNode.t -> Prop) x fresh touch
    cs :
  distinctNames cs ->
  Forall Q cs ->
  (existsb (fun c => String.eqb (FolderNode.name c) x) cs = false ->
   Q' (touch fresh)) ->
  (forall c, Q c -> FolderNode.name c = x -> Q' (touch c)) ->
  (forall c, Q c -> FolderNode.name c <> x -> Q' c) ->
  Forall Q'
    (findOrCreate (fun c => String.eqb (FolderNode.name c) x) fresh touch cs).
Proof.
  unfold distinctNames. intros Hnd Hcs Hfresh Hhit Hmiss.
  induction cs as [|c cs IH].
  - unfold findOrCreate. simpl. constructor; [now apply Hfresh|constructor].
  - rewrite findOrCreate_cons. simpl in Hnd, Hfresh.
    inversion Hnd as [|? ? Hc Hnd']; inversion Hcs as [|? ? Hq Hcs']; subst.
    destruct (String.eqb_spec (FolderNode.name c) x) as [E|E].
    + constructor; [now apply Hhit|].
      rewrite Forall_forall in *. intros c' Hc'. apply Hmiss; [now apply Hcs'|].
      intros E'. apply Hc. rewrite E, <- E'. now apply in_map.
    + constructor; [now apply Hmiss|]. now apply IH.
Qed.

Lemma upsert_Forall2 {V} (P P' : string -> V -> Prop) (m : JsMap.t V) k
    fresh f :
  NoDup (JsMap.keys m) ->
  Forall (fun kv => P (fst kv) (snd kv)) m ->
  (JsMap.has m k = false -> P' k (f fresh)) ->
  (forall v, P k v -> P' k (f v)) ->
  (forall k' v, k' <> k -> P k' v -> P' k' v) ->
  Forall (fun kv => P' (fst kv) (snd kv)) (upsert m k fresh f).
Proof.
  intros Hnd Hm Hfresh Hhit Hmiss. induction m as [|[k' v] m IH]; simpl.
  - constructor; [now apply Hfresh|constructor].
  - inversion Hm as [|? ? Hv Hm']; subst. simpl in Hv, Hfresh.
    inversion Hnd as [|? ? Hk' Hnd']; subst.
    destruct (String.eqb_spec k' k) as [->|E].
    + constructor; [now apply Hhit|].
      rewrite Forall_forall in *. intros [k'' v''] Hin. simpl.
      apply Hmiss; [|now apply (Hm' (k'', v''))].
      intros ->. apply Hk'. now apply (in_map fst) in Hin.
    + constructor; [now apply Hmiss|]. now apply IH.
Qed.
End DocFacts.

Module CountFacts.
Import Js FileExplorer Aux Aux2 FindFacts DocFacts.

Lemma touchPhase_docs done doc c :
  FolderNode.name c = phaseStr (Document.phase doc) ->
  countsPhaseDocs done (Document.projectId doc) c ->
  countsPhaseDocs (done ++ [doc]) (Document.projectId doc)
     (touchPhaseWith (disciplineByName doc) doc c).
Proof.
  intros Hname H di. rewrite NodeFacts.touchPhaseWith_children.
  change (FolderNode.name (touchPhaseWith (disciplineByName doc) doc c))
    with (FolderNode.name c).
  unfold disciplineByName.
  rewrite (countByName_findOrCreate
             (disciplineStr (Document.discipline doc)));
    try reflexivity.
  rewrite filter_snoc_length, H. f_equal.
  unfold inDiscipline, inPhase, inProject.
  now rewrite Hname, !String.eqb_refl.
Qed.

Lemma otherPhase_docs done doc c :
  FolderNode.name c <> phaseStr (Document.phase doc) ->
  countsPhaseDocs done (Document.projectId doc) c ->
  countsPhaseDocs (done ++ [doc]) (Document.projectId doc) c.
Proof.
  intros Hname H di. rewrite filter_snoc_length, H.
  unfold inDiscipline, inPhase.
  destruct (String.eqb_spec (phaseStr (Document.phase doc))
                            (FolderNode.name c)) as [E|_];
    [now destruct Hname|].
  rewrite andb_false_r. simpl. lia.
Qed.

Lemma newPhase_docs done doc :
  List.length (filter (inPhase (Document.projectId doc)
                               (phaseStr (Document.phase doc))) done) = 0 ->
  countsPhaseDocs done (Document.projectId doc) (newPhaseNode doc).
Proof.
  intros H di. symmetry. revert H. apply filter_none_impl.
  intros d. unfold inDiscipline. simpl. now intros [E _]%andb_true_iff.
Qed.

Lemma touchProject_docs done doc n :
  distinctNames (FolderNode.childrenOrEmpty n) ->
  countsDocs done (Document.projectId doc) n ->
  countsDocs (done ++ [doc]) (Document.projectId doc)
             (touchProjectWith (phaseByName doc) (disciplineByName doc)
                               doc n).
Proof.
  intros Hnd [Hn [Hph Hcs]]. unfold countsDocs.
  rewrite NodeFacts.touchProjectWith_children,
    NodeFacts.touchProjectWith_count.
  split; [|split].
  - rewrite filter_snoc_length, Hn. unfold inProject.
    now rewrite String.eqb_refl.
  - intros ph. unfold phaseByName.
    rewrite (countByName_findOrCreate (phaseStr (Document.phase doc)));
      try reflexivity.
    rewrite filter_snoc_length, Hph. unfold inPhase, inProject.
    now rewrite String.eqb_refl.
  - unfold phaseByName.
    apply (findOrCreate_Forall_named (countsPhaseDocs done (Document.projectId doc)));
      [exact Hnd|exact Hcs| | |].
    + intros Hnone. apply touchPhase_docs; [reflexivity|].
      apply newPhase_docs. rewrite <- Hph. now apply countByName_none.
    + intros c Hc E. now apply touchPhase_docs.
    + intros c Hc E. now apply otherPhase_docs.
Qed.

Lemma newProject_docs done doc nm :
  List.length (filter (inProject (Document.projectId doc)) done) = 0 ->
  countsDocs done (Document.projectId doc) (newProjectNode nm doc).
Proof.
  intros H. unfold countsDocs. simpl.
  split; [now rewrite H|]. split; [|constructor].
  intros ph. symmetry. revert H. apply filter_none_impl.
  intros d. unfold inPhase. now intros [E _]%andb_true_iff.
Qed.

Lemma otherProject_docs done doc k n :
  k <> Document.projectId doc ->
  countsDocs done k n -> countsDocs (done ++ [doc]) k n.
Proof.
  intros Hk [Hn [Hph Hcs]].
  assert (E : inProject k doc = false).
  { unfold inProject. apply String.eqb_neq. congruence. }
  unfold countsDocs. split; [|split].
  - rewrite filter_snoc_length, Hn, E. lia.
  - intros ph. rewrite filter_snoc_length, Hph. unfold inPhase.
    rewrite E. simpl. lia.
  - eapply Forall_impl; [|exact Hcs]. intros c Hc di.
    rewrite filter_snoc_length, Hc. unfold inDiscipline, inPhase.
    rewrite E. simpl. lia.
Qed.

Lemma step_docs projects done doc m :
  wfMap projects m ->
  docsInv done m ->
  docsInv (done ++ [doc]) (step projects phaseByName disciplineByName m doc).
Proof.
  intros [Hnd Hwf] [Hm Hnone]. split.
  - unfold step.
    assert (Hboth : Forall (fun kv =>
                              (wfProject projects (fst kv) (snd kv)
                               /\ countsDocs done (fst kv) (snd kv))) m).
    { rewrite Forall_forall in *. intros kv Hkv. split; auto. }
    apply (upsert_Forall2
             (fun k n => wfProject projects k n /\ countsDocs done k n)
             (countsDocs (done ++ [doc])));
      [exact Hnd|exact Hboth| | |].
    + intros Hhas. apply touchProject_docs; [constructor|].
      now apply newProject_docs, Hnone.
    + intros v [[_ [_ [_ [Hnames _]]]] Hv]. now apply touchProject_docs.
    + intros k' v Hk' [_ Hv]. now apply otherProject_docs.
  - intros k. unfold step. rewrite ShapeFacts.upsert_has_eq.
    intros [Hk E]%orb_false_iff.
    rewrite filter_snoc_length, (Hnone k Hk). unfold inProject.
    rewrite String.eqb_sym, E. reflexivity.
Qed.

(** After the loop the counts are those of the whole collection. *)
Lemma fold_step_docs projects docs :
  forall m done,
    wfMap projects m ->
    docsInv done m ->
    docsInv (done ++ docs)
            (fold_left (step projects phaseByName disciplineByName) docs m).
Proof.
  induction docs as [|doc docs IH]; intros m done Hwf Hinv; simpl.
  - now rewrite app_nil_r.
  - replace (done ++ doc :: docs) with ((done ++ [doc]) ++ docs)
      by now rewrite <- app_assoc.
    apply IH; [now apply NodeFacts.step_wf|now apply step_docs].
Qed.

Lemma docsInv_empty : docsInv [] [].
Proof. split; [constructor|reflexivity]. Qed.
End CountFacts.

(** ** Ids as paths *)

Module DecodeFacts.
Import Js FileExplorer Aux Aux2 JsFacts.

Lemma includes_cons_dash (c : ascii) (s : string) :
  includes (String c s) "-" = Ascii.eqb "-" c || includes s "-".
Proof.
  rewrite includes_eq.
  change (startsWith (String c s) "-")
    with (Ascii.eqb "-" c && startsWith s "").
  replace (startsWith s "") with true by now destruct s.
  now rewrite andb_true_r.
Qed.

Lemma split_dashfree (a : string) :
  includes a "-" = false -> split "-" a = [a].
Proof.
  induction a as [|c a IH]; [reflexivity|].
  rewrite includes_cons_dash. intros [Hc Ha]%orb_false_iff. simpl.
  rewrite Ascii.eqb_sym, Hc. now rewrite (IH Ha).
Qed.

Lemma split_app_dash (a s : string) :
  includes a "-" = false ->
  split "-" (a ++ "-" ++ s) = a :: split "-" s.
Proof.
  induction a as [|c a IH]; [reflexivity|].
  rewrite includes_cons_dash. intros [Hc Ha]%orb_false_iff. simpl.
  rewrite Ascii.eqb_sym, Hc. simpl in IH. now rewrite (IH Ha).
Qed.

(** Dash-free tokens joined with dashes split back into the tokens. *)
Lemma split_join (toks : list string) :
  toks <> [] ->
  Forall (fun t => includes t "-" = false) toks ->
  split "-" (join "-" toks) = toks.
Proof.
  induction toks as [|t toks IH]; [congruence|]. intros _ Hts.
  inversion Hts as [|? ? Ht Hts']; subst.
  destruct toks as [|t' toks]; [now apply split_dashfree|].
  change (join "-" (t :: t' :: toks))
    with (t ++ "-" ++ join "-" (t' :: toks))%string.
  rewrite (split_app_dash _ _ Ht), IH; [reflexivity|discriminate|exact Hts'].
Qed.

Lemma includes_app_dash (a s : string) : includes (a ++ "-" ++ s) "-" = true.
Proof. apply includes_spec. now exists a, s. Qed.

Lemma dashed_not_all (p : string) :
  includes p "-" = true -> String.eqb p "all" = false.
Proof.
  intros H. destruct (String.eqb_spec p "all") as [->|_];
    [discriminate|reflexivity].
Qed.

Lemma phaseStr_dashfree ph : includes (phaseStr ph) "-" = false.
Proof. now destruct ph. Qed.

Lemma disciplineStr_dashfree di : includes (disciplineStr di) "-" = false.
Proof. now destruct di. Qed.

Lemma phase_is_no_discipline ph di :
  String.eqb (phaseStr ph) (disciplineStr di) = false.
Proof. now destruct ph, di. Qed.

(** The path stage on a dashed id whose tokens are known. *)
Lemma pathFilter_split (p t0 t1 : string) (more : list string)
    (D : list Document.t) :
  includes p "-" = true ->
  split "-" p = t0 :: t1 :: more ->
  pathFilter p D = filter (Spec.restriction t0 t1 more) D.
Proof.
  intros Hp Es. unfold pathFilter. rewrite Hp, Es.
  unfold Spec.restriction, at_.
  destruct more as [|ph [|di more]]; simpl;
    rewrite ?ListFacts.filter_twice; apply filter_ext; intros d;
    now rewrite ?andb_true_r, ?andb_assoc.
Qed.

(** The engine on the one-element path of a dashed id, with no query. *)
Lemma filteredDocuments_dashed {casing : Casing} (p : string)
    (toks : list string)
    (t0 t1 : string) (more : list string) (D : list Document.t)
    (q : string) :
  p = join "-" toks ->
  toks = t0 :: t1 :: more ->
  Forall (fun t => includes t "-" = false) toks ->
  filteredDocuments D [p] q
  = Ok (searchFilter q (filter (Spec.restriction t0 t1 more) D)).
Proof.
  intros -> -> Hts.
  assert (Hp : includes (join "-" (t0 :: t1 :: more)) "-" = true).
  { change (join "-" (t0 :: t1 :: more))
      with (t0 ++ "-" ++ join "-" (t1 :: more))%string.
    apply includes_app_dash. }
  unfold filteredDocuments. rewrite (dashed_not_all _ Hp). simpl negb.
  cbv iota. now rewrite (pathFilter_split _ t0 t1 more) by
    (trivial; now apply split_join).
Qed.

Lemma append_grows (k s : string) (c : ascii) :
  (k ++ String c s)%string <> k.
Proof.
  induction k as [|x k IH]; simpl; [discriminate|].
  intros [= H]. now apply IH.
Qed.

Lemma filter_nothing {A} (f : A -> bool) (l : list A) :
  (forall x, f x = false) -> filter f l = [].
Proof.
  intros H. induction l as [|x l IH]; simpl; [reflexivity|].
  now rewrite H.
Qed.

Lemma searchFilter_nil {casing : Casing} q : searchFilter q [] = [].
Proof. unfold searchFilter. now destruct (truthy q). Qed.
End DecodeFacts.

Module MatchFacts.
Import Js FileExplorer Aux Aux2 JsFacts DecodeFacts.

Lemma select_project {casing : Casing} (a b : string) (D : list Document.t) :
  includes a "-" = false -> includes b "-" = false ->
  filteredDocuments D [(a ++ "-" ++ b)%string] ""
  = Ok (filter (inProject (a ++ "-" ++ b)) D).
Proof.
  intros Ha Hb.
  rewrite (filteredDocuments_dashed (a ++ "-" ++ b) [a; b] a b [] D ""
             eq_refl eq_refl)
    by now repeat constructor.
  unfold searchFilter. simpl. f_equal. apply filter_ext. intros d.
  unfold Spec.restriction, inProject. simpl. now rewrite !andb_true_r.
Qed.

Lemma select_phase {casing : Casing} (a b ph : string) (D : list Document.t) :
  includes a "-" = false -> includes b "-" = false ->
  includes ph "-" = false ->
  filteredDocuments D [((a ++ "-" ++ b) ++ "-" ++ ph)%string] ""
  = Ok (filter (inPhase (a ++ "-" ++ b) ph) D).
Proof.
  intros Ha Hb Hph. rewrite NodeFacts.dash_assoc.
  rewrite (filteredDocuments_dashed (a ++ "-" ++ b ++ "-" ++ ph)
             [a; b; ph] a b [ph] D "" eq_refl eq_refl)
    by now repeat constructor.
  unfold searchFilter. simpl. f_equal. apply filter_ext. intros d.
  unfold Spec.restriction, inPhase, inProject. simpl.
  now rewrite !andb_true_r.
Qed.

Lemma select_discipline {casing : Casing} (a b ph di : string)
    (D : list Document.t) :
  includes a "-" = false -> includes b "-" = false ->
  includes ph "-" = false -> includes di "-" = false ->
  filteredDocuments D
    [(((a ++ "-" ++ b) ++ "-" ++ ph) ++ "-" ++ di)%string] ""
  = Ok (filter (inDiscipline (a ++ "-" ++ b) ph di) D).
Proof.
  intros Ha Hb Hph Hdi.
  assert (E : (((a ++ "-" ++ b) ++ "-" ++ ph) ++ "-" ++ di)%string
              = join "-" [a; b; ph; di])
    by (simpl; now rewrite !append_assoc).
  rewrite (filteredDocuments_dashed _ [a; b; ph; di] a b [ph; di] D ""
             E eq_refl)
    by now repeat constructor.
  unfold searchFilter. simpl. f_equal.
Qed.
End MatchFacts.

(** X13.  For a project whose id is two dash-free parts joined by a dash
    (as in [proj-1]), the count of every node of the project (the project
    node, its phase nodes, their discipline nodes) is the number of
    documents the engine returns when the node's id is the selected path
    and the query is empty. *)
Theorem folderTree_counts_match_filter {casing : Casing} :
  forall (projects : list Project.t) (D : list Document.t) (a b : string)
         (root project : FolderNode.t),
    includes a "-" = false ->
    includes b "-" = false ->
    folderTree projects D = Ok [root] ->
    In project (FolderNode.childrenOrEmpty root) ->
    FolderNode.id project = (a ++ "-" ++ b)%string ->
    (exists R,
        filteredDocuments D [FolderNode.id project] "" = Ok R
        /\ FolderNode.countOrZero project = List.length R)
    /\ forall phase,
         In phase (FolderNode.childrenOrEmpty project) ->
         (exists R,
             filteredDocuments D [FolderNode.id phase] "" = Ok R
             /\ FolderNode.countOrZero phase = List.length R)
         /\ forall disc,
              In disc (FolderNode.childrenOrEmpty phase) ->
              exists R,
                filteredDocuments D [FolderNode.id disc] "" = Ok R
                /\ FolderNode.countOrZero disc = List.length R.
Proof.
  intros projects D a b root project Ha Hb Ht Hin Hid.
  apply NavFacts.folderTree_Ok in Ht. injection Ht as ->.
  unfold FolderNode.childrenOrEmpty at 1, rootNode in Hin.
  cbn [FolderNode.children] in Hin.
  apply in_map_iff in Hin as [[k n] [E Hin]]. simpl in E. subst n.
  pose proof (NodeFacts.fold_step_wf projects D []
                (NodeFacts.wfMap_empty projects)) as [_ Hwf].
  pose proof (CountFacts.fold_step_docs projects D [] []
                (NodeFacts.wfMap_empty projects) CountFacts.docsInv_empty)
    as [Hdocs _].
  pose proof (ShapeFacts.fold_step_shape projects phaseByName
                disciplineByName D [] (Forall_nil _)) as Hshape.
  rewrite Forall_forall in Hwf, Hdocs, Hshape.
  specialize (Hwf _ Hin). specialize (Hdocs _ Hin).
  specialize (Hshape _ Hin). simpl in Hwf, Hdocs, Hshape.
  destruct Hwf as [Hk [_ [_ [Hnames [Hphases _]]]]].
  destruct Hdocs as [Hn [Hph Hcs]].
  apply ShapeFacts.isProjectNode_children in Hshape.
  rewrite Hid in Hk. subst k.
  split.
  - exists (filter (Aux2.inProject (a ++ "-" ++ b)) D).
    rewrite Hid. split; [now apply MatchFacts.select_project|exact Hn].
  - intros phase Hphase. rewrite Forall_forall in Hphases, Hcs, Hshape.
    destruct (Hphases _ Hphase) as [Hidp [Hnamesp Hidsp]].
    pose proof (Hshape _ Hphase) as Hsp.
    pose proof (ShapeFacts.isPhaseNode_children _ Hsp) as Hds.
    destruct Hsp as [_ [[ph [Hnp _]] _]].
    assert (Hdp : includes (FolderNode.name phase) "-" = false)
      by (rewrite Hnp; apply DecodeFacts.phaseStr_dashfree).
    unfold idUnder in Hidp. split.
    + exists (filter (Aux2.inPhase (a ++ "-" ++ b) (FolderNode.name phase))
                     D).
      rewrite Hidp. split; [now apply MatchFacts.select_phase|].
      rewrite <- Hph. symmetry. now apply DocFacts.countByName_self.
    + intros disc Hdisc. rewrite Forall_forall in Hidsp, Hds.
      pose proof (Hidsp _ Hdisc) as Hidd. unfold idUnder in Hidd.
      destruct (Hds _ Hdisc) as [_ [_ [di [Hnd _]]]].
      exists (filter (Aux2.inDiscipline (a ++ "-" ++ b)
                        (FolderNode.name phase) (FolderNode.name disc)) D).
      rewrite Hidd, Hidp. split.
      * apply MatchFacts.select_discipline; trivial.
        rewrite Hnd. apply DecodeFacts.disciplineStr_dashfree.
      * rewrite <- (Hcs _ Hphase). symmetry.
        now apply DocFacts.countByName_self.
Qed.

Lemma folderTree_counts_match_filter_witness :
  exists R,
    filteredDocuments (casing := asciiCasing)
          [Scenario.d1 "Drawing" None; Scenario.d3]
                      ["proj-1"] "" = Ok R
    /\ 1 = List.length R.
Proof.
  refine (proj1 (folderTree_counts_match_filter (casing := asciiCasing)
                   [] [Scenario.d1 "Drawing" None; Scenario.d3]
                   "proj"%string "1"%string
                   (rootNode [Scenario.d1 "Drawing" None; Scenario.d3]
                      (fold_left (Aux.step [] phaseByName disciplineByName)
                         [Scenario.d1 "Drawing" None; Scenario.d3] []))
                   (touchProjectWith
                      (phaseByName (Scenario.d1 "Drawing" None))
                      (disciplineByName (Scenario.d1 "Drawing" None))
                      (Scenario.d1 "Drawing" None)
                      (newProjectNode "Unknown Project"
                         (Scenario.d1 "Drawing" None)))
                   _ _ _ _ _)).
  - reflexivity.
  - reflexivity.
  - reflexivity.
  - simpl. left. reflexivity.
  - reflexivity.
Defined.

(** X14.  For a project whose id has no dash, the ids of its folders are
    misread: the id of a phase node selects the documents whose
    [projectId] is that whole id, none of which belongs to the project,
    and the id of a discipline node selects no document at all. *)
Theorem dashless_project_id_misread {casing : Casing} :
  forall (D : list Document.t) (k q : string) (ph : DocumentPhase)
         (di : DocumentDiscipline),
    includes k "-" = false ->
    filteredDocuments D [(k ++ "-" ++ phaseStr ph)%string] q
    = Ok (searchFilter q
            (filter (Aux2.inProject (k ++ "-" ++ phaseStr ph)) D))
    /\ (forall d,
          In d (filter (Aux2.inProject (k ++ "-" ++ phaseStr ph)) D) ->
          Document.projectId d <> k)
    /\ filteredDocuments D
         [((k ++ "-" ++ phaseStr ph) ++ "-" ++ disciplineStr di)%string] q
       = Ok [].
Proof.
  intros D k q ph di Hk. split; [|split].
  - rewrite (DecodeFacts.filteredDocuments_dashed
               (k ++ "-" ++ phaseStr ph)
               [k; phaseStr ph] k (phaseStr ph) [] D q eq_refl eq_refl)
      by (repeat constructor; trivial; apply DecodeFacts.phaseStr_dashfree).
    do 2 f_equal. apply filter_ext. intros d.
    unfold Spec.restriction, Aux2.inProject. simpl.
    now rewrite !andb_true_r.
  - intros d [_ Hd]%filter_In. unfold Aux2.inProject in Hd.
    apply String.eqb_eq in Hd. rewrite Hd. apply DecodeFacts.append_grows.
  - rewrite NodeFacts.dash_assoc.
    rewrite (DecodeFacts.filteredDocuments_dashed
               (k ++ "-" ++ phaseStr ph ++ "-" ++ disciplineStr di)
               [k; phaseStr ph; disciplineStr di] k (phaseStr ph)
               [disciplineStr di] D q eq_refl eq_refl)
      by (repeat constructor; trivial;
          [apply DecodeFacts.phaseStr_dashfree
          |apply DecodeFacts.disciplineStr_dashfree]).
    rewrite DecodeFacts.filter_nothing; [now rewrite DecodeFacts.searchFilter_nil|].
    intros d. unfold Spec.restriction. simpl.
    now rewrite DecodeFacts.phase_is_no_discipline, andb_false_r.
Qed.

Lemma dashless_project_id_misread_witness :
  filteredDocuments (casing := asciiCasing)
    [Document.mk "d9" "Site Plan" "Drawing" "alpha" Design Civil [] None]
    [(("alpha" ++ "-" ++ phaseStr Design) ++ "-" ++ disciplineStr Civil)%string]
    "" = Ok [].
Proof.
  apply (dashless_project_id_misread (casing := asciiCasing)
           [Document.mk "d9" "Site Plan" "Drawing" "alpha" Design Civil []
                        None]
           "alpha"%string ""%string Design Civil).
  reflexivity.
Defined.

(** X15.  A one-element path whose id is not ['all'] and has at most one
    dash selects exactly the documents with that [projectId], in order,
    before the search stage. *)
Theorem project_path_selects_project {casing : Casing} :
  forall (D : list Document.t) (k q : string),
    k <> "all"%string ->
    List.length (split "-" k) <= 2 ->
    filteredDocuments D [k] q
    = Ok (searchFilter q (filter (Aux2.inProject k) D)).
Proof.
  intros D k q Hall Hlen.
  assert (E : String.eqb k "all" = false) by now apply String.eqb_neq.
  unfold filteredDocuments. rewrite E. simpl negb. cbv iota. do 2 f_equal.
  destruct (includes k "-") eqn:Hdash.
  - destruct (JsFacts.split_two "-" k Hdash) as [t0 [t1 [more Es]]].
    pose proof (JsFacts.join_split "-" k) as Hj. rewrite Es in Hlen, Hj.
    destruct more as [|t2 more]; [|simpl in Hlen; lia].
    rewrite (DecodeFacts.pathFilter_split k t0 t1 [] D Hdash Es).
    apply filter_ext. intros d. unfold Spec.restriction, Aux2.inProject.
    simpl in Hj. simpl. now rewrite Hj, !andb_true_r.
  - unfold pathFilter. now rewrite Hdash.
Qed.

Lemma project_path_selects_project_witness :
  filteredDocuments (casing := asciiCasing)
        [Scenario.d1 "Drawing" None; Scenario.d3] ["proj-2"] "bud"
  = Ok (searchFilter (casing := asciiCasing) "bud"
          (filter (Aux2.inProject "proj-2")
                  [Scenario.d1 "Drawing" None; Scenario.d3])).
Proof.
  apply (project_path_selects_project (casing := asciiCasing)
           [Scenario.d1 "Drawing" None; Scenario.d3]
           "proj-2"%string "bud"%string).
  - discriminate.
  - simpl. lia.
Defined.
